(** * pen-tool: the stroke store, the temporal compositor and the input handlers

  A shallow embedding of [src/pen-tool.ts] (class [PenTool]) and of the
  tool-switching interface of the plain JavaScript build of the same class
  ([setActiveTool], [getCurrentTool], [enable], [disable]).

  Conventions of the embedding:
  - a JavaScript number is an integer of [Z] ([Date.now()] is an integer
    number of milliseconds; pointer coordinates and widths are only copied,
    subtracted from the bounding rectangle and printed, never rounded);
  - the attribute [d] of a path, built by string concatenation
    ["M x y" + " L x y" + ...], is kept as the list of its commands;
  - an [SVGPathElement] created by [document.createElementNS] lives in a
    heap of elements and is named by its index, because the class keeps
    several references to the same element ([currentPath], the [element]
    of the temporary eraser stroke, the child of the drawing container)
    and mutates it through one of them; [cloneNode(true)] copies the
    element's attributes out of the heap;
  - [Date.now()] is a reading of the environment: every handler that
    calls it takes the reading [now] as an argument. *)

From Stdlib Require Import ZArith String List Bool Lia Sorted Permutation.
From stdpp Require Import base option list.
Import ListNotations.

Local Open Scope string_scope.
Local Open Scope Z_scope.
Local Open Scope list_scope.

(** ** The fragment of the DOM the class builds *)

Module Dom.

(** One command of a path's [d] attribute. *)
Inductive PathCmd : Type :=
| MoveTo (x y : Z)
| LineTo (x y : Z).

(** The attributes of a [<path>] that differ between paths.  [fill="none"],
    [stroke-linecap="round"] and [stroke-linejoin="round"] are the same on
    every path the class creates and are left out. *)
Record SVGPathElement : Type := {
  attr_class : option string;
  attr_stroke : option string;
  attr_stroke_width : Z;
  attr_d : list PathCmd
}.

#[global] Instance SVGPathElement_inhabited : Inhabited SVGPathElement :=
  populate {| attr_class := None; attr_stroke := None;
              attr_stroke_width := 0; attr_d := [] |}.

Definition setAttribute_d (data : list PathCmd) (el : SVGPathElement)
  : SVGPathElement :=
  {| attr_class := attr_class el; attr_stroke := attr_stroke el;
     attr_stroke_width := attr_stroke_width el; attr_d := data |}.

Definition setAttribute_stroke (c : string) (el : SVGPathElement)
  : SVGPathElement :=
  {| attr_class := attr_class el; attr_stroke := Some c;
     attr_stroke_width := attr_stroke_width el; attr_d := attr_d el |}.

Definition setAttribute_stroke_width (w : Z) (el : SVGPathElement)
  : SVGPathElement :=
  {| attr_class := attr_class el; attr_stroke := attr_stroke el;
     attr_stroke_width := w; attr_d := attr_d el |}.

(** A [<mask id="pen-mask-i">]: a white full-size rectangle followed by the
    eraser paths painted black.  The id is kept as its index [i]. *)
Record Mask : Type := {
  mask_id : nat;
  mask_paths : list SVGPathElement
}.

(** A child of the drawing container [<g>]. *)
Inductive Node : Type :=
| LivePath (ref : nat)
    (* the path being drawn, appended itself (not a clone) by startDrawing *)
| PathNode (el : SVGPathElement)
    (* a cloned pen path, appended directly *)
| MaskedGroup (maskId : nat) (el : SVGPathElement).
    (* <g mask="url(#pen-mask-maskId)"> around a cloned pen path *)

(** The red circle that follows the eraser.  Its radius is
    [eraserWidth / 2]; the width it is computed from is what is kept. *)
Record Indicator : Type := {
  cx : Z;
  cy : Z;
  diameter : Z
}.

(** What a handler reads from a [MouseEvent], with the bounding rectangle
    of the [<svg>] at that moment. *)
Record MouseEvent : Type := {
  clientX : Z;
  clientY : Z;
  rect_left : Z;
  rect_top : Z
}.

Record Touch : Type := {
  touch_clientX : Z;
  touch_clientY : Z
}.

Record TouchEvent : Type := {
  touches : list Touch;
  touch_rect_left : Z;
  touch_rect_top : Z
}.

End Dom.

(** ** [src/pen-tool.ts] *)

Module PenTool.
Import Dom.

Inductive StrokeType : Type := pen | eraser.

Definition StrokeType_eqb (a b : StrokeType) : bool :=
  match a, b with
  | pen, pen | eraser, eraser => true
  | _, _ => false
  end.

(** [interface Stroke].  [element] is a reference into the heap;
    [isTemporary] absent ([undefined]) is [false]. *)
Record Stroke : Type := {
  type : StrokeType;
  element : nat;
  timestamp : Z;
  isTemporary : bool
}.

Inductive Position : Type := top | bottom | left | right.

(** [interface PenToolOptions] without [targetElement]. *)
Record PenToolOptions : Type := {
  opt_lineWidth : option Z;
  opt_lineColor : option string;
  opt_toolPosition : option Position;
  opt_zIndex : option Z;
  opt_eraserWidth : option Z
}.

(** The fields of the class.  [heap] holds every path element created so
    far; [drawingContainer] and [defs] are the children of the [<g>] and
    of the [<defs>] of the [<svg>] ([defs = None]: no [<defs>] yet). *)
Record State : Type := {
  heap : list SVGPathElement;
  drawingContainer : list Node;
  defs : option (list Mask);
  isDrawing : bool;
  currentPath : option nat;
  currentPathData : list PathCmd;
  eraserIndicator : option Indicator;
  strokes : list Stroke;
  temporaryEraserStroke : option Stroke;
  lineWidth : Z;
  lineColor : string;
  toolPosition : Position;
  zIndex : Z;
  currentTool : StrokeType;
  eraserWidth : Z
}.

(** [a || d] on an optional number: [undefined] and [0] are falsy. *)
Definition or_default_Z (o : option Z) (d : Z) : Z :=
  match o with
  | Some v => if v =? 0 then d else v
  | None => d
  end.

(** [a || d] on an optional string: [undefined] and [''] are falsy. *)
Definition or_default_string (o : option string) (d : string) : string :=
  match o with
  | Some EmptyString => d
  | Some v => v
  | None => d
  end.

(** [constructor(options)] followed by [initialize()]: an empty drawing
    container, no [<defs>], the pen selected. *)
Definition new (options : PenToolOptions) : State :=
  {| heap := [];
     drawingContainer := [];
     defs := None;
     isDrawing := false;
     currentPath := None;
     currentPathData := [];
     eraserIndicator := None;
     strokes := [];
     temporaryEraserStroke := None;
     lineWidth := or_default_Z (opt_lineWidth options) 3;
     lineColor := or_default_string (opt_lineColor options) "#000000";
     toolPosition := default top (opt_toolPosition options);
     zIndex := or_default_Z (opt_zIndex options) 10;
     currentTool := pen;
     eraserWidth := or_default_Z (opt_eraserWidth options) 15 |}.

(** *** Field updates *)

Definition set_heap (v : list SVGPathElement) (s : State) : State :=
  {| heap := v; drawingContainer := drawingContainer s; defs := defs s;
     isDrawing := isDrawing s; currentPath := currentPath s;
     currentPathData := currentPathData s;
     eraserIndicator := eraserIndicator s; strokes := strokes s;
     temporaryEraserStroke := temporaryEraserStroke s;
     lineWidth := lineWidth s; lineColor := lineColor s;
     toolPosition := toolPosition s; zIndex := zIndex s;
     currentTool := currentTool s; eraserWidth := eraserWidth s |}.

Definition set_drawingContainer (v : list Node) (s : State) : State :=
  {| heap := heap s; drawingContainer := v; defs := defs s;
     isDrawing := isDrawing s; currentPath := currentPath s;
     currentPathData := currentPathData s;
     eraserIndicator := eraserIndicator s; strokes := strokes s;
     temporaryEraserStroke := temporaryEraserStroke s;
     lineWidth := lineWidth s; lineColor := lineColor s;
     toolPosition := toolPosition s; zIndex := zIndex s;
     currentTool := currentTool s; eraserWidth := eraserWidth s |}.

Definition set_defs (v : option (list Mask)) (s : State) : State :=
  {| heap := heap s; drawingContainer := drawingContainer s; defs := v;
     isDrawing := isDrawing s; currentPath := currentPath s;
     currentPathData := currentPathData s;
     eraserIndicator := eraserIndicator s; strokes := strokes s;
     temporaryEraserStroke := temporaryEraserStroke s;
     lineWidth := lineWidth s; lineColor := lineColor s;
     toolPosition := toolPosition s; zIndex := zIndex s;
     currentTool := currentTool s; eraserWidth := eraserWidth s |}.

Definition set_isDrawing (v : bool) (s : State) : State :=
  {| heap := heap s; drawingContainer := drawingContainer s; defs := defs s;
     isDrawing := v; currentPath := currentPath s;
     currentPathData := currentPathData s;
     eraserIndicator := eraserIndicator s; strokes := strokes s;
     temporaryEraserStroke := temporaryEraserStroke s;
     lineWidth := lineWidth s; lineColor := lineColor s;
     toolPosition := toolPosition s; zIndex := zIndex s;
     currentTool := currentTool s; eraserWidth := eraserWidth s |}.

Definition set_currentPath (v : option nat) (s : State) : State :=
  {| heap := heap s; drawingContainer := drawingContainer s; defs := defs s;
     isDrawing := isDrawing s; currentPath := v;
     currentPathData := currentPathData s;
     eraserIndicator := eraserIndicator s; strokes := strokes s;
     temporaryEraserStroke := temporaryEraserStroke s;
     lineWidth := lineWidth s; lineColor := lineColor s;
     toolPosition := toolPosition s; zIndex := zIndex s;
     currentTool := currentTool s; eraserWidth := eraserWidth s |}.

Definition set_currentPathData (v : list PathCmd) (s : State) : State :=
  {| heap := heap s; drawingContainer := drawingContainer s; defs := defs s;
     isDrawing := isDrawing s; currentPath := currentPath s;
     currentPathData := v;
     eraserIndicator := eraserIndicator s; strokes := strokes s;
     temporaryEraserStroke := temporaryEraserStroke s;
     lineWidth := lineWidth s; lineColor := lineColor s;
     toolPosition := toolPosition s; zIndex := zIndex s;
     currentTool := currentTool s; eraserWidth := eraserWidth s |}.

Definition set_eraserIndicator (v : option Indicator) (s : State) : State :=
  {| heap := heap s; drawingContainer := drawingContainer s; defs := defs s;
     isDrawing := isDrawing s; currentPath := currentPath s;
     currentPathData := currentPathData s;
     eraserIndicator := v; strokes := strokes s;
     temporaryEraserStroke := temporaryEraserStroke s;
     lineWidth := lineWidth s; lineColor := lineColor s;
     toolPosition := toolPosition s; zIndex := zIndex s;
     currentTool := currentTool s; eraserWidth := eraserWidth s |}.

Definition set_strokes (v : list Stroke) (s : State) : State :=
  {| heap := heap s; drawingContainer := drawingContainer s; defs := defs s;
     isDrawing := isDrawing s; currentPath := currentPath s;
     currentPathData := currentPathData s;
     eraserIndicator := eraserIndicator s; strokes := v;
     temporaryEraserStroke := temporaryEraserStroke s;
     lineWidth := lineWidth s; lineColor := lineColor s;
     toolPosition := toolPosition s; zIndex := zIndex s;
     currentTool := currentTool s; eraserWidth := eraserWidth s |}.

Definition set_temporaryEraserStroke (v : option Stroke) (s : State)
  : State :=
  {| heap := heap s; drawingContainer := drawingContainer s; defs := defs s;
     isDrawing := isDrawing s; currentPath := currentPath s;
     currentPathData := currentPathData s;
     eraserIndicator := eraserIndicator s; strokes := strokes s;
     temporaryEraserStroke := v;
     lineWidth := lineWidth s; lineColor := lineColor s;
     toolPosition := toolPosition s; zIndex := zIndex s;
     currentTool := currentTool s; eraserWidth := eraserWidth s |}.

Definition set_currentTool (v : StrokeType) (s : State) : State :=
  {| heap := heap s; drawingContainer := drawingContainer s; defs := defs s;
     isDrawing := isDrawing s; currentPath := currentPath s;
     currentPathData := currentPathData s;
     eraserIndicator := eraserIndicator s; strokes := strokes s;
     temporaryEraserStroke := temporaryEraserStroke s;
     lineWidth := lineWidth s; lineColor := lineColor s;
     toolPosition := toolPosition s; zIndex := zIndex s;
     currentTool := v; eraserWidth := eraserWidth s |}.

(** *** The compositor: [renderStrokes] *)

(** [this.strokes.sort((a, b) => a.timestamp - b.timestamp)].
    [Array.prototype.sort] is stable; with this comparator the result is
    the ascending arrangement in which strokes of equal timestamp keep
    their order.  It is computed here by insertion: a stroke is placed
    before the first stroke of the sorted rest whose timestamp is not
    smaller than its own. *)
Fixpoint insert_by_timestamp (a : Stroke) (l : list Stroke) : list Stroke :=
  match l with
  | [] => [a]
  | b :: l' =>
      if timestamp a <=? timestamp b then a :: l
      else b :: insert_by_timestamp a l'
  end.

Fixpoint sort_by_timestamp (l : list Stroke) : list Stroke :=
  match l with
  | [] => []
  | a :: l' => insert_by_timestamp a (sort_by_timestamp l')
  end.

(** The two arrays filled by the first [forEach]. *)
Definition penStrokes (l : list Stroke) : list Stroke :=
  List.filter (fun stroke => StrokeType_eqb (type stroke) pen) l.

Definition eraserStrokes (l : list Stroke) : list Stroke :=
  List.filter (fun stroke => negb (StrokeType_eqb (type stroke) pen)) l.

(** [eraserStrokes.filter(eraser => eraser.timestamp > penStroke.timestamp)] *)
Definition applicableErasers (erasers : list Stroke) (penStroke : Stroke)
  : list Stroke :=
  List.filter (fun e => timestamp e >? timestamp penStroke) erasers.

(** [el.cloneNode(true)] of the element behind a reference.  References
    are indices handed out by [createPath] and are never dangling. *)
Definition cloneNode (h : list SVGPathElement) (ref : nat) : SVGPathElement :=
  h !!! ref.

(** The path appended to a mask for one applicable eraser: a clone painted
    black whose [stroke-width] is set from [this.eraserWidth]. *)
Definition eraserPath (h : list SVGPathElement) (w : Z) (e : Stroke)
  : SVGPathElement :=
  setAttribute_stroke_width w
    (setAttribute_stroke "black" (cloneNode h (element e))).

(** [penStrokes.forEach((penStroke, penIndex) => ...)]: the children
    appended to the drawing container and the masks appended to [<defs>],
    both in the order of the pen strokes. *)
Fixpoint renderPens (h : list SVGPathElement) (w : Z)
    (erasers : list Stroke) (penIndex : nat) (pens : list Stroke)
  : list Node * list Mask :=
  match pens with
  | [] => ([], [])
  | penStroke :: rest =>
      let penElement := cloneNode h (element penStroke) in
      let applicable := applicableErasers erasers penStroke in
      let '(nodes, masks) := renderPens h w erasers (S penIndex) rest in
      if (0 <? length applicable)%nat then
        (MaskedGroup penIndex penElement :: nodes,
         {| mask_id := penIndex;
            mask_paths := map (eraserPath h w) applicable |} :: masks)
      else
        (PathNode penElement :: nodes, masks)
  end.

Definition renderStrokes (s : State) : State :=
  let sorted := sort_by_timestamp (strokes s) in
  let '(nodes, masks) :=
    renderPens (heap s) (eraserWidth s) (eraserStrokes sorted) 0
      (penStrokes sorted) in
  set_drawingContainer nodes (set_defs (Some masks) (set_strokes sorted s)).

(** *** The eraser indicator *)

(** [hideEraserIndicator].  The circle is a child of the [<svg>] from its
    creation until it is removed here, so its [parentNode] is never null
    while the field is set. *)
Definition hideEraserIndicator (s : State) : State :=
  match eraserIndicator s with
  | Some _ => set_eraserIndicator None s
  | None => s
  end.

(** [showEraserIndicator(x, y)]: the circle is created if absent, then its
    centre and radius are set. *)
Definition showEraserIndicator (x y : Z) (s : State) : State :=
  set_eraserIndicator
    (Some {| cx := x; cy := y; diameter := eraserWidth s |}) s.

(** *** Building a stroke *)

(** [document.createElementNS(..., 'path')] with its first attributes: the
    new element is stored at the end of the heap and its index is the
    reference. *)
Definition createPath (el : SVGPathElement) (s : State) : nat * State :=
  (length (heap s), set_heap (heap s ++ [el]) s).

(** [el.setAttribute('d', data)] through a reference. *)
Definition setPathData (ref : nat) (data : list PathCmd) (s : State)
  : State :=
  set_heap (alter (setAttribute_d data) ref (heap s)) s.

Definition startDrawing (x y : Z) (s : State) : State :=
  let data := [MoveTo x y] in
  let '(ref, s1) :=
    createPath {| attr_class := None;
                  attr_stroke := Some (lineColor s);
                  attr_stroke_width := lineWidth s;
                  attr_d := data |} s in
  set_drawingContainer (drawingContainer s1 ++ [LivePath ref])
    (set_currentPathData data (set_currentPath (Some ref) s1)).

Definition continueDrawing (x y : Z) (s : State) : State :=
  match currentPath s with
  | None => s
  | Some ref =>
      let data := currentPathData s ++ [LineTo x y] in
      setPathData ref data (set_currentPathData data s)
  end.

Definition startErasing (x y : Z) (now : Z) (s : State) : State :=
  let s0 := showEraserIndicator x y s in
  let data := [MoveTo x y] in
  let '(ref, s1) :=
    createPath {| attr_class := Some "eraser-path";
                  attr_stroke := None;
                  attr_stroke_width := eraserWidth s0;
                  attr_d := data |} s0 in
  let s2 := set_currentPathData data (set_currentPath (Some ref) s1) in
  let temporary :=
    {| type := eraser; element := ref; timestamp := now;
       isTemporary := true |} in
  let s3 := set_temporaryEraserStroke (Some temporary) s2 in
  let s4 := set_strokes (strokes s3 ++ [temporary]) s3 in
  renderStrokes s4.

Definition continueErasing (x y : Z) (s : State) : State :=
  match currentPath s with
  | None => s
  | Some ref =>
      let s0 := showEraserIndicator x y s in
      let data := currentPathData s0 ++ [LineTo x y] in
      let s1 := setPathData ref data (set_currentPathData data s0) in
      match temporaryEraserStroke s1 with
      | Some temporary =>
          renderStrokes (setPathData (element temporary) data s1)
      | None => s1
      end
  end.

(** *** Event handlers *)

Definition handleDrawStart (event : MouseEvent) (now : Z) (s : State)
  : State :=
  let x := clientX event - rect_left event in
  let y := clientY event - rect_top event in
  let s1 := set_isDrawing true s in
  match currentTool s1 with
  | pen => startDrawing x y s1
  | eraser => startErasing x y now s1
  end.

Definition handleDrawMove (event : MouseEvent) (s : State) : State :=
  if negb (isDrawing s) then s
  else
    let x := clientX event - rect_left event in
    let y := clientY event - rect_top event in
    match currentTool s with
    | pen => continueDrawing x y s
    | eraser => continueErasing x y s
    end.

Definition handleDrawEnd (now : Z) (s : State) : State :=
  if negb (isDrawing s) then s
  else
    let s3 :=
      match currentPath s with
      | Some ref =>
          let s1 :=
            match temporaryEraserStroke s with
            | Some _ =>
                set_temporaryEraserStroke None
                  (set_strokes
                     (List.filter (fun stroke => negb (isTemporary stroke))
                        (strokes s)) s)
            | None => s
            end in
          let s2 :=
            set_strokes
              (strokes s1 ++
               [{| type := currentTool s1; element := ref;
                   timestamp := now; isTemporary := false |}]) s1 in
          renderStrokes s2
      | None => s
      end in
    hideEraserIndicator (set_currentPath None (set_isDrawing false s3)).

Definition handleTouchStart (event : TouchEvent) (now : Z) (s : State)
  : State :=
  match touches event with
  | [touch] =>
      let x := touch_clientX touch - touch_rect_left event in
      let y := touch_clientY touch - touch_rect_top event in
      let s1 := set_isDrawing true s in
      match currentTool s1 with
      | pen => startDrawing x y s1
      | eraser => startErasing x y now s1
      end
  | _ => s
  end.

Definition handleTouchMove (event : TouchEvent) (s : State) : State :=
  if negb (isDrawing s) then s
  else
    match touches event with
    | [touch] =>
        let x := touch_clientX touch - touch_rect_left event in
        let y := touch_clientY touch - touch_rect_top event in
        match currentTool s with
        | pen => continueDrawing x y s
        | eraser => continueErasing x y s
        end
    | _ => s
    end.

Definition handleTouchEnd (now : Z) (s : State) : State :=
  handleDrawEnd now s.

(** *** Public methods *)

Definition clearAll (s : State) : State :=
  let s1 := set_drawingContainer [] s in
  let s2 := set_strokes [] s1 in
  let s3 :=
    match defs s2 with
    | Some _ => set_defs (Some []) s2
    | None => s2
    end in
  hideEraserIndicator s3.

(** [updateOptions(options)]: each field that is not [undefined] replaces
    the configured value.  The styles of the [<svg>] and of the toolbar
    that mirror [zIndex] and [toolPosition] are not kept. *)
Definition updateOptions (options : PenToolOptions) (s : State) : State :=
  {| heap := heap s; drawingContainer := drawingContainer s; defs := defs s;
     isDrawing := isDrawing s; currentPath := currentPath s;
     currentPathData := currentPathData s;
     eraserIndicator := eraserIndicator s; strokes := strokes s;
     temporaryEraserStroke := temporaryEraserStroke s;
     lineWidth := default (lineWidth s) (opt_lineWidth options);
     lineColor := default (lineColor s) (opt_lineColor options);
     toolPosition := default (toolPosition s) (opt_toolPosition options);
     zIndex := default (zIndex s) (opt_zIndex options);
     currentTool := currentTool s;
     eraserWidth := default (eraserWidth s) (opt_eraserWidth options) |}.

(** *** The listeners *)

(** The buttons built by [createToolbar]. *)
Inductive Button : Type := button_pen | button_eraser | button_clear.

(** The click listener of a button.  The [active] class of the buttons is
    not kept. *)
Definition handleClick (b : Button) (s : State) : State :=
  match b with
  | button_pen => hideEraserIndicator (set_currentTool pen s)
  | button_eraser => hideEraserIndicator (set_currentTool eraser s)
  | button_clear => clearAll s
  end.

(** What can happen to an instance: a DOM event one of its listeners is
    registered for, or a call of a public method by the host page. *)
Inductive Event : Type :=
| mousedown (event : MouseEvent)
| mousemove (event : MouseEvent)
| mouseup
| touchstart (event : TouchEvent)
| touchmove (event : TouchEvent)
| touchend
| touchcancel
| click (b : Button)
| call_clearAll
| call_updateOptions (options : PenToolOptions).

(** [addEventListeners] and the listeners of [createToolbar]: the handler
    each event is bound to.  [now] is what [Date.now()] returns while the
    handler runs. *)
Definition dispatch (now : Z) (ev : Event) (s : State) : State :=
  match ev with
  | mousedown event => handleDrawStart event now s
  | mousemove event => handleDrawMove event s
  | mouseup => handleDrawEnd now s
  | touchstart event => handleTouchStart event now s
  | touchmove event => handleTouchMove event s
  | touchend => handleTouchEnd now s
  | touchcancel => handleTouchEnd now s
  | click b => handleClick b s
  | call_clearAll => clearAll s
  | call_updateOptions options => updateOptions options s
  end.

(** A history: events in delivery order, each with the clock reading at
    its delivery. *)
Fixpoint run (history : list (Z * Event)) (s : State) : State :=
  match history with
  | [] => s
  | (now, ev) :: rest => run rest (dispatch now ev s)
  end.

End PenTool.

(** ** The tool-switching interface of the JavaScript build

  The plain JavaScript build of the class adds a third tool, ['hand'], an
  explicit [init()], and [enable()], [disable()], [destroy()],
  [setActiveTool(toolName)] and [getCurrentTool()].  Only the fields these
  methods read or write are kept; the stroke store and the compositor of
  that build are those of [PenTool] above. *)

Module PenToolJs.

(** A toolbar button: its [data-tool] attribute and whether its class list
    holds ['active']. *)
Record ToolButton : Type := {
  data_tool : string;
  active : bool
}.

(** The two style properties of the [<svg>] the methods set. *)
Record SvgStyle : Type := {
  display : string;
  pointerEvents : string
}.

Inductive ConsoleLevel : Type := warn | error | log.

(** The fields of the class read or written by the lifecycle and
    tool-switching methods.  [svg] and [toolbar] are [null] ([None]) before
    [init()] and after [destroy()].  [touchAction] and [handMode] are the
    style and the ['pen-tool-hand-mode'] class of the target element;
    [console] collects what the methods print, oldest first. *)
Record State : Type := {
  svg : option SvgStyle;
  toolbar : option (list ToolButton);
  isDrawing : bool;
  currentPathSet : bool;
  eraserIndicatorShown : bool;
  currentTool : string;
  themeToggle : bool;
  isEnabled : bool;
  touchAction : string;
  handMode : bool;
  console : list (ConsoleLevel * string)
}.

(** How a method call ends: it returns, or a [TypeError] is thrown when a
    property of [null] is read.  Both carry the fields as they are then. *)
Inductive Completion : Type :=
| Returned (s : State)
| Thrown (s : State).

Definition state_of (c : Completion) : State :=
  match c with
  | Returned s => s
  | Thrown s => s
  end.

(** The field values after the constructor: nothing is built yet and the
    instance counts as enabled. *)
Definition new (themeToggleOption : bool) : State :=
  {| svg := None; toolbar := None; isDrawing := false;
     currentPathSet := false; eraserIndicatorShown := false;
     currentTool := "pen"; themeToggle := themeToggleOption;
     isEnabled := true; touchAction := ""; handMode := false;
     console := [] |}.

Definition console_print (level : ConsoleLevel) (msg : string) (s : State)
  : State :=
  {| svg := svg s; toolbar := toolbar s; isDrawing := isDrawing s;
     currentPathSet := currentPathSet s;
     eraserIndicatorShown := eraserIndicatorShown s;
     currentTool := currentTool s; themeToggle := themeToggle s;
     isEnabled := isEnabled s; touchAction := touchAction s;
     handMode := handMode s; console := console s ++ [(level, msg)] |}.

Definition set_currentTool (v : string) (s : State) : State :=
  {| svg := svg s; toolbar := toolbar s; isDrawing := isDrawing s;
     currentPathSet := currentPathSet s;
     eraserIndicatorShown := eraserIndicatorShown s;
     currentTool := v; themeToggle := themeToggle s;
     isEnabled := isEnabled s; touchAction := touchAction s;
     handMode := handMode s; console := console s |}.

Definition set_toolbar (v : option (list ToolButton)) (s : State) : State :=
  {| svg := svg s; toolbar := v; isDrawing := isDrawing s;
     currentPathSet := currentPathSet s;
     eraserIndicatorShown := eraserIndicatorShown s;
     currentTool := currentTool s; themeToggle := themeToggle s;
     isEnabled := isEnabled s; touchAction := touchAction s;
     handMode := handMode s; console := console s |}.

Definition set_svg (v : option SvgStyle) (s : State) : State :=
  {| svg := v; toolbar := toolbar s; isDrawing := isDrawing s;
     currentPathSet := currentPathSet s;
     eraserIndicatorShown := eraserIndicatorShown s;
     currentTool := currentTool s; themeToggle := themeToggle s;
     isEnabled := isEnabled s; touchAction := touchAction s;
     handMode := handMode s; console := console s |}.

Definition set_target (action : string) (hand : bool) (s : State) : State :=
  {| svg := svg s; toolbar := toolbar s; isDrawing := isDrawing s;
     currentPathSet := currentPathSet s;
     eraserIndicatorShown := eraserIndicatorShown s;
     currentTool := currentTool s; themeToggle := themeToggle s;
     isEnabled := isEnabled s; touchAction := action;
     handMode := hand; console := console s |}.

Definition set_isEnabled (v : bool) (s : State) : State :=
  {| svg := svg s; toolbar := toolbar s; isDrawing := isDrawing s;
     currentPathSet := currentPathSet s;
     eraserIndicatorShown := eraserIndicatorShown s;
     currentTool := currentTool s; themeToggle := themeToggle s;
     isEnabled := v; touchAction := touchAction s;
     handMode := handMode s; console := console s |}.

Definition hideEraserIndicator (s : State) : State :=
  {| svg := svg s; toolbar := toolbar s; isDrawing := isDrawing s;
     currentPathSet := currentPathSet s;
     eraserIndicatorShown := false;
     currentTool := currentTool s; themeToggle := themeToggle s;
     isEnabled := isEnabled s; touchAction := touchAction s;
     handMode := handMode s; console := console s |}.

(** [disable()] ends any drawing in progress:
    [isDrawing = false; currentPath = null; hideEraserIndicator()]. *)
Definition endOngoingDrawing (s : State) : State :=
  {| svg := svg s; toolbar := toolbar s; isDrawing := false;
     currentPathSet := false;
     eraserIndicatorShown := false;
     currentTool := currentTool s; themeToggle := themeToggle s;
     isEnabled := isEnabled s; touchAction := touchAction s;
     handMode := handMode s; console := console s |}.

(** The buttons [createToolbar] appends; the pen button starts active. *)
Definition createToolbar (s : State) : list ToolButton :=
  [ {| data_tool := "pen"; active := true |};
    {| data_tool := "eraser"; active := false |};
    {| data_tool := "hand"; active := false |};
    {| data_tool := "clear"; active := false |} ] ++
  (if themeToggle s then [ {| data_tool := "theme"; active := false |} ]
   else []).

Definition init (s : State) : State :=
  match svg s, toolbar s with
  | None, None =>
      set_toolbar (Some (createToolbar s))
        (set_svg (Some {| display := ""; pointerEvents := "auto" |})
           (set_target "pan-x pan-y pinch-zoom" (handMode s) s))
  | _, _ =>
      console_print warn
        "PenTool is already initialized. Call destroy() first if you want to reinitialize."
        s
  end.

Definition enable (s : State) : State :=
  match svg s, toolbar s with
  | Some _, Some _ =>
      set_svg
        (Some {| display := "block";
                 pointerEvents :=
                   if String.eqb (currentTool s) "hand" then "none"
                   else "auto" |})
        (set_isEnabled true s)
  | _, _ =>
      console_print warn
        "PenTool is not initialized. Call init() first before enabling." s
  end.

Definition disable (s : State) : State :=
  match svg s, toolbar s with
  | Some _, Some _ =>
      endOngoingDrawing
        (set_svg (Some {| display := "none"; pointerEvents := "none" |})
           (set_isEnabled false s))
  | _, _ => console_print warn "PenTool is not initialized." s
  end.

Definition destroy (s : State) : State :=
  console_print log "PenTool destroyed successfully"
    {| svg := None; toolbar := None; isDrawing := false;
       currentPathSet := false; eraserIndicatorShown := false;
       currentTool := "pen"; themeToggle := themeToggle s;
       isEnabled := false; touchAction := ""; handMode := false;
       console := console s |}.

Definition validTools : list string := ["pen"; "eraser"; "hand"].

(** [validTools.includes(toolName)] *)
Definition includes (l : list string) (x : string) : bool :=
  existsb (String.eqb x) l.

(** [buttons.forEach(btn => btn.classList.remove('active'))] *)
Definition removeActive (buttons : list ToolButton) : list ToolButton :=
  map (fun btn => {| data_tool := data_tool btn; active := false |}) buttons.

(** [querySelector('[data-tool=...]')] followed by [classList.add('active')]
    on the first match, if any. *)
Fixpoint addActive (toolName : string) (buttons : list ToolButton)
  : list ToolButton :=
  match buttons with
  | [] => []
  | btn :: rest =>
      if String.eqb (data_tool btn) toolName
      then {| data_tool := data_tool btn; active := true |} :: rest
      else btn :: addActive toolName rest
  end.

Definition setActiveTool (toolName : string) (s : State) : Completion :=
  if negb (isEnabled s) then
    Returned
      (console_print warn
         "PenTool is disabled. Enable it first before switching tools." s)
  else if negb (includes validTools toolName) then
    Returned
      (console_print error
         ("Invalid tool name: " ++ toolName ++
          ". Valid tools are: pen, eraser, hand")%string s)
  else
    let s1 := set_currentTool toolName s in
    match toolbar s1 with
    | None => Thrown s1
    | Some buttons =>
        let s2 :=
          set_toolbar (Some (addActive toolName (removeActive buttons))) s1 in
        match svg s2 with
        | None => Thrown s2
        | Some style =>
            let s3 :=
              if String.eqb toolName "hand" then
                set_target "auto" true
                  (set_svg (Some {| display := display style;
                                    pointerEvents := "none" |}) s2)
              else
                set_target "pan-x pan-y pinch-zoom" false
                  (set_svg (Some {| display := display style;
                                    pointerEvents := "auto" |}) s2) in
            Returned
              (if negb (String.eqb toolName "eraser")
               then hideEraserIndicator s3 else s3)
        end
    end.

Definition getCurrentTool (s : State) : string := currentTool s.

Definition switchToPenTool (s : State) : Completion :=
  setActiveTool "pen" s.

Definition switchToEraserTool (s : State) : Completion :=
  setActiveTool "eraser" s.

Definition switchToHandTool (s : State) : Completion :=
  setActiveTool "hand" s.


End PenToolJs.

(** ** The input handlers of the JavaScript build

    The JavaScript build has its own copy of the handlers, with the hand
    tool, the eraser indicator that follows the pointer outside a session,
    and touch events tested against the rectangle of the [<svg>].  Its
    strokes carry the tool name under which they were committed, one of
    three.  The listeners are registered on several elements; what is
    modelled is one call of a handler, not the propagation of an event. *)

Module PenToolJsInput.
Import Dom.

Inductive Tool : Type := pen | eraser | hand.

Definition Tool_eqb (a b : Tool) : bool :=
  match a, b with
  | pen, pen | eraser, eraser | hand, hand => true
  | _, _ => false
  end.

Record Stroke : Type := {
  type : Tool;
  element : nat;
  timestamp : Z;
  isTemporary : bool
}.

(** What [handleTouchStart] and [handleTouchMove] read: the touches and the
    bounding rectangle of the [<svg>], with its width and height. *)
Record BoundedTouchEvent : Type := {
  touch_event : TouchEvent;
  rect_width : Z;
  rect_height : Z
}.

(** The fields the handlers read or write. *)
Record State : Type := {
  heap : list SVGPathElement;
  drawingContainer : list Node;
  defs : option (list Mask);
  isDrawing : bool;
  currentPath : option nat;
  currentPathData : list PathCmd;
  eraserIndicator : option Indicator;
  strokes : list Stroke;
  temporaryEraserStroke : option Stroke;
  lineWidth : Z;
  lineColor : string;
  currentTool : Tool;
  eraserWidth : Z
}.

(** The fields after the constructor and [init()], for a given pen width,
    colour and eraser width. *)
Definition initialised (width : Z) (color : string) (eraser_width : Z)
  : State :=
  {| heap := []; drawingContainer := []; defs := None; isDrawing := false;
     currentPath := None; currentPathData := []; eraserIndicator := None;
     strokes := []; temporaryEraserStroke := None; lineWidth := width;
     lineColor := color; currentTool := pen; eraserWidth := eraser_width |}.

Definition set_heap (v : list SVGPathElement) (s : State) : State :=
  {| heap := v; drawingContainer := drawingContainer s; defs := defs s;
     isDrawing := isDrawing s; currentPath := currentPath s;
     currentPathData := currentPathData s;
     eraserIndicator := eraserIndicator s; strokes := strokes s;
     temporaryEraserStroke := temporaryEraserStroke s;
     lineWidth := lineWidth s; lineColor := lineColor s;
     currentTool := currentTool s; eraserWidth := eraserWidth s |}.

Definition set_drawingContainer (v : list Node) (s : State) : State :=
  {| heap := heap s; drawingContainer := v; defs := defs s;
     isDrawing := isDrawing s; currentPath := currentPath s;
     currentPathData := currentPathData s;
     eraserIndicator := eraserIndicator s; strokes := strokes s;
     temporaryEraserStroke := temporaryEraserStroke s;
     lineWidth := lineWidth s; lineColor := lineColor s;
     currentTool := currentTool s; eraserWidth := eraserWidth s |}.

Definition set_defs (v : option (list Mask)) (s : State) : State :=
  {| heap := heap s; drawingContainer := drawingContainer s; defs := v;
     isDrawing := isDrawing s; currentPath := currentPath s;
     currentPathData := currentPathData s;
     eraserIndicator := eraserIndicator s; strokes := strokes s;
     temporaryEraserStroke := temporaryEraserStroke s;
     lineWidth := lineWidth s; lineColor := lineColor s;
     currentTool := currentTool s; eraserWidth := eraserWidth s |}.

Definition set_isDrawing (v : bool) (s : State) : State :=
  {| heap := heap s; drawingContainer := drawingContainer s; defs := defs s;
     isDrawing := v; currentPath := currentPath s;
     currentPathData := currentPathData s;
     eraserIndicator := eraserIndicator s; strokes := strokes s;
     temporaryEraserStroke := temporaryEraserStroke s;
     lineWidth := lineWidth s; lineColor := lineColor s;
     currentTool := currentTool s; eraserWidth := eraserWidth s |}.

Definition set_currentPath (v : option nat) (s : State) : State :=
  {| heap := heap s; drawingContainer := drawingContainer s; defs := defs s;
     isDrawing := isDrawing s; currentPath := v;
     currentPathData := currentPathData s;
     eraserIndicator := eraserIndicator s; strokes := strokes s;
     temporaryEraserStroke := temporaryEraserStroke s;
     lineWidth := lineWidth s; lineColor := lineColor s;
     currentTool := currentTool s; eraserWidth := eraserWidth s |}.

Definition set_currentPathData (v : list PathCmd) (s : State) : State :=
  {| heap := heap s; drawingContainer := drawingContainer s; defs := defs s;
     isDrawing := isDrawing s; currentPath := currentPath s;
     currentPathData := v; eraserIndicator := eraserIndicator s;
     strokes := strokes s; temporaryEraserStroke := temporaryEraserStroke s;
     lineWidth := lineWidth s; lineColor := lineColor s;
     currentTool := currentTool s; eraserWidth := eraserWidth s |}.

Definition set_eraserIndicator (v : option Indicator) (s : State) : State :=
  {| heap := heap s; drawingContainer := drawingContainer s; defs := defs s;
     isDrawing := isDrawing s; currentPath := currentPath s;
     currentPathData := currentPathData s; eraserIndicator := v;
     strokes := strokes s; temporaryEraserStroke := temporaryEraserStroke s;
     lineWidth := lineWidth s; lineColor := lineColor s;
     currentTool := currentTool s; eraserWidth := eraserWidth s |}.

Definition set_strokes (v : list Stroke) (s : State) : State :=
  {| heap := heap s; drawingContainer := drawingContainer s; defs := defs s;
     isDrawing := isDrawing s; currentPath := currentPath s;
     currentPathData := currentPathData s;
     eraserIndicator := eraserIndicator s; strokes := v;
     temporaryEraserStroke := temporaryEraserStroke s;
     lineWidth := lineWidth s; lineColor := lineColor s;
     currentTool := currentTool s; eraserWidth := eraserWidth s |}.

Definition set_temporaryEraserStroke (v : option Stroke) (s : State) : State :=
  {| heap := heap s; drawingContainer := drawingContainer s; defs := defs s;
     isDrawing := isDrawing s; currentPath := currentPath s;
     currentPathData := currentPathData s;
     eraserIndicator := eraserIndicator s; strokes := strokes s;
     temporaryEraserStroke := v; lineWidth := lineWidth s;
     lineColor := lineColor s; currentTool := currentTool s;
     eraserWidth := eraserWidth s |}.

Definition set_currentTool (v : Tool) (s : State) : State :=
  {| heap := heap s; drawingContainer := drawingContainer s; defs := defs s;
     isDrawing := isDrawing s; currentPath := currentPath s;
     currentPathData := currentPathData s;
     eraserIndicator := eraserIndicator s; strokes := strokes s;
     temporaryEraserStroke := temporaryEraserStroke s;
     lineWidth := lineWidth s; lineColor := lineColor s; currentTool := v;
     eraserWidth := eraserWidth s |}.

Fixpoint insert_by_timestamp (a : Stroke) (l : list Stroke) : list Stroke :=
  match l with
  | [] => [a]
  | b :: l' =>
      if timestamp a <=? timestamp b then a :: l
      else b :: insert_by_timestamp a l'
  end.

(** [this.strokes.sort((a, b) => a.timestamp - b.timestamp)], stable. *)
Fixpoint sort_by_timestamp (l : list Stroke) : list Stroke :=
  match l with
  | [] => []
  | a :: l' => insert_by_timestamp a (sort_by_timestamp l')
  end.

(** [stroke.type === 'pen'] fills [penStrokes]; every other stroke, of
    type ['eraser'] or ['hand'], goes to [eraserStrokes]. *)
Definition penStrokes (l : list Stroke) : list Stroke :=
  List.filter (fun stroke => Tool_eqb (type stroke) pen) l.

Definition eraserStrokes (l : list Stroke) : list Stroke :=
  List.filter (fun stroke => negb (Tool_eqb (type stroke) pen)) l.

Definition applicableErasers (erasers : list Stroke) (penStroke : Stroke)
  : list Stroke :=
  List.filter (fun e => timestamp e >? timestamp penStroke) erasers.

Definition cloneNode (h : list SVGPathElement) (ref : nat) : SVGPathElement :=
  h !!! ref.

Definition eraserPath (h : list SVGPathElement) (w : Z) (e : Stroke)
  : SVGPathElement :=
  setAttribute_stroke_width w
    (setAttribute_stroke "black" (cloneNode h (element e))).

Fixpoint renderPens (h : list SVGPathElement) (w : Z)
    (erasers : list Stroke) (penIndex : nat) (pens : list Stroke)
  : list Node * list Mask :=
  match pens with
  | [] => ([], [])
  | penStroke :: rest =>
      let penElement := cloneNode h (element penStroke) in
      let applicable := applicableErasers erasers penStroke in
      let '(nodes, masks) := renderPens h w erasers (S penIndex) rest in
      if (0 <? length applicable)%nat then
        (MaskedGroup penIndex penElement :: nodes,
         {| mask_id := penIndex;
            mask_paths := map (eraserPath h w) applicable |} :: masks)
      else
        (PathNode penElement :: nodes, masks)
  end.

Definition renderStrokes (s : State) : State :=
  let sorted := sort_by_timestamp (strokes s) in
  let '(nodes, masks) :=
    renderPens (heap s) (eraserWidth s) (eraserStrokes sorted) 0
      (penStrokes sorted) in
  set_drawingContainer nodes (set_defs (Some masks) (set_strokes sorted s)).

Definition hideEraserIndicator (s : State) : State :=
  match eraserIndicator s with
  | Some _ => set_eraserIndicator None s
  | None => s
  end.

Definition showEraserIndicator (x y : Z) (s : State) : State :=
  set_eraserIndicator
    (Some {| cx := x; cy := y; diameter := eraserWidth s |}) s.

Definition createPath (el : SVGPathElement) (s : State) : nat * State :=
  (length (heap s), set_heap (heap s ++ [el]) s).

Definition setPathData (ref : nat) (data : list PathCmd) (s : State)
  : State :=
  set_heap (alter (setAttribute_d data) ref (heap s)) s.

Definition startDrawing (x y : Z) (s : State) : State :=
  let data := [MoveTo x y] in
  let '(ref, s1) :=
    createPath {| attr_class := None;
                  attr_stroke := Some (lineColor s);
                  attr_stroke_width := lineWidth s;
                  attr_d := data |} s in
  set_drawingContainer (drawingContainer s1 ++ [LivePath ref])
    (set_currentPathData data (set_currentPath (Some ref) s1)).

Definition continueDrawing (x y : Z) (s : State) : State :=
  match currentPath s with
  | None => s
  | Some ref =>
      let data := currentPathData s ++ [LineTo x y] in
      setPathData ref data (set_currentPathData data s)
  end.

Definition startErasing (x y : Z) (now : Z) (s : State) : State :=
  let s0 := showEraserIndicator x y s in
  let data := [MoveTo x y] in
  let '(ref, s1) :=
    createPath {| attr_class := Some "eraser-path";
                  attr_stroke := None;
                  attr_stroke_width := eraserWidth s0;
                  attr_d := data |} s0 in
  let s2 := set_currentPathData data (set_currentPath (Some ref) s1) in
  let temporary :=
    {| type := eraser; element := ref; timestamp := now;
       isTemporary := true |} in
  let s3 := set_temporaryEraserStroke (Some temporary) s2 in
  let s4 := set_strokes (strokes s3 ++ [temporary]) s3 in
  renderStrokes s4.

Definition continueErasing (x y : Z) (s : State) : State :=
  match currentPath s with
  | None => s
  | Some ref =>
      let s0 := showEraserIndicator x y s in
      let data := currentPathData s0 ++ [LineTo x y] in
      let s1 := setPathData ref data (set_currentPathData data s0) in
      match temporaryEraserStroke s1 with
      | Some temporary =>
          renderStrokes (setPathData (element temporary) data s1)
      | None => s1
      end
  end.

(** The tail shared by the start handlers: [this.isDrawing = true], then
    the start of the stroke of the current tool. *)
Definition beginStroke (x y : Z) (now : Z) (s : State) : State :=
  let s1 := set_isDrawing true s in
  match currentTool s1 with
  | pen => startDrawing x y s1
  | eraser => startErasing x y now s1
  | hand => s1
  end.

(** The tail shared by the move handlers. *)
Definition continueStroke (x y : Z) (s : State) : State :=
  match currentTool s with
  | pen => continueDrawing x y s
  | eraser => continueErasing x y s
  | hand => s
  end.

Definition handleDrawStart (event : MouseEvent) (now : Z) (s : State)
  : State :=
  match currentTool s with
  | hand => s
  | _ =>
      let x := clientX event - rect_left event in
      let y := clientY event - rect_top event in
      beginStroke x y now s
  end.

Definition handleDrawMove (event : MouseEvent) (s : State) : State :=
  match currentTool s with
  | hand => s
  | _ =>
      let x := clientX event - rect_left event in
      let y := clientY event - rect_top event in
      let s1 :=
        match currentTool s with
        | eraser => showEraserIndicator x y s
        | _ => s
        end in
      if negb (isDrawing s1) then s1 else continueStroke x y s1
  end.

Definition handleMouseLeave (s : State) : State :=
  if Tool_eqb (currentTool s) eraser && negb (isDrawing s)
  then hideEraserIndicator s else s.

Definition handleDrawEnd (now : Z) (s : State) : State :=
  if negb (isDrawing s) then s
  else
    let s3 :=
      match currentPath s with
      | Some ref =>
          let s1 :=
            match temporaryEraserStroke s with
            | Some _ =>
                set_temporaryEraserStroke None
                  (set_strokes
                     (List.filter (fun stroke => negb (isTemporary stroke))
                        (strokes s)) s)
            | None => s
            end in
          let s2 :=
            set_strokes
              (strokes s1 ++
               [{| type := currentTool s1; element := ref;
                   timestamp := now; isTemporary := false |}]) s1 in
          renderStrokes s2
      | None => s
      end in
    hideEraserIndicator (set_currentPath None (set_isDrawing false s3)).

(** [x >= 0 && y >= 0 && x <= rect.width && y <= rect.height] *)
Definition withinBounds (x y : Z) (event : BoundedTouchEvent) : bool :=
  (0 <=? x) && (0 <=? y) && (x <=? rect_width event) &&
  (y <=? rect_height event).

Definition handleTouchStart (event : BoundedTouchEvent) (now : Z)
    (s : State) : State :=
  match currentTool s with
  | hand => s
  | _ =>
      match touches (touch_event event) with
      | [touch] =>
          let x := touch_clientX touch - touch_rect_left (touch_event event) in
          let y := touch_clientY touch - touch_rect_top (touch_event event) in
          if withinBounds x y event then beginStroke x y now s else s
      | _ => s
      end
  end.

Definition handleTouchMove (event : BoundedTouchEvent) (s : State) : State :=
  match currentTool s with
  | hand => s
  | _ =>
      match touches (touch_event event) with
      | [touch] =>
          let x := touch_clientX touch - touch_rect_left (touch_event event) in
          let y := touch_clientY touch - touch_rect_top (touch_event event) in
          let isWithinBounds := withinBounds x y event in
          let s1 :=
            if Tool_eqb (currentTool s) eraser && isWithinBounds
            then showEraserIndicator x y s else s in
          if negb (isDrawing s1) then s1
          else if isWithinBounds then continueStroke x y s1 else s1
      | _ => s
      end
  end.

Definition handleTouchEnd (now : Z) (s : State) : State :=
  match currentTool s with
  | hand => s
  | _ => handleDrawEnd now s
  end.

(** [handleToolSelect], the listener of the three tool buttons: the tool is
    selected and the eraser indicator is hidden unless the eraser is
    selected.  The classes and styles it sets are not kept. *)
Definition handleToolSelect (tool : Tool) (s : State) : State :=
  let s1 := set_currentTool tool s in
  match tool with
  | eraser => s1
  | _ => hideEraserIndicator s1
  end.

End PenToolJsInput.

(** * The vocabulary of the properties *)

Section Vocabulary.
Import Dom PenTool.

Definition timestamp_le (a b : Stroke) : Prop := timestamp a <= timestamp b.

(** The strokes of a list that carry timestamp [t], in their order. *)
Definition with_timestamp (t : Z) (l : list Stroke) : list Stroke :=
  List.filter (fun st => timestamp st =? t) l.

(** A store for examples: a pen stroke drawn at time 1, an eraser stroke
    at time 2, a pen stroke drawn at time 3, and their three paths. *)
Definition example_heap : list SVGPathElement :=
  [ {| attr_class := None; attr_stroke := Some "#000000";
       attr_stroke_width := 3; attr_d := [MoveTo 0 0; LineTo 10 0] |};
    {| attr_class := Some "eraser-path"; attr_stroke := None;
       attr_stroke_width := 15; attr_d := [MoveTo 5 0] |};
    {| attr_class := None; attr_stroke := Some "#000000";
       attr_stroke_width := 3; attr_d := [MoveTo 0 5; LineTo 10 5] |} ].

Definition example_pen_1 : Stroke :=
  {| type := pen; element := 0; timestamp := 1; isTemporary := false |}.
Definition example_eraser_2 : Stroke :=
  {| type := eraser; element := 1; timestamp := 2; isTemporary := false |}.
Definition example_pen_3 : Stroke :=
  {| type := pen; element := 2; timestamp := 3; isTemporary := false |}.

Definition example_state : State :=
  set_strokes [example_pen_3; example_eraser_2; example_pen_1]
    (set_heap example_heap
       (new {| opt_lineWidth := None; opt_lineColor := None;
               opt_toolPosition := None; opt_zIndex := None;
               opt_eraserWidth := None |})).

(** The strokes of a store that are not temporary. *)
Definition committed (l : list Stroke) : list Stroke :=
  List.filter (fun stroke => negb (isTemporary stroke)) l.

(** The end signals of a session: the three events bound to
    [handleDrawEnd] (two of them through [handleTouchEnd]). *)
Definition is_end_signal (ev : Event) : bool :=
  match ev with
  | mouseup | touchend | touchcancel => true
  | _ => false
  end.

Definition no_options : PenToolOptions :=
  {| opt_lineWidth := None; opt_lineColor := None;
     opt_toolPosition := None; opt_zIndex := None;
     opt_eraserWidth := None |}.

(** A mouse event at [(x, y)] over an [<svg>] whose corner is the origin. *)
Definition mouse_at (x y : Z) : MouseEvent :=
  {| clientX := x; clientY := y; rect_left := 0; rect_top := 0 |}.

(** The counterexample to C2: the eraser is selected, the button goes down
    at clock reading 10 and up at clock reading 20. *)
Definition erase_down : list (Z * Event) :=
  [(0, click button_eraser); (10, mousedown (mouse_at 15 10))].

Definition erase_down_up : list (Z * Event) :=
  erase_down ++ [(20, mouseup)].

(** The temporary strokes of a store. *)
Definition uncommitted (l : list Stroke) : list Stroke :=
  List.filter isTemporary l.

(** What holds in every state an instance can reach: outside a session
    there is neither a current path nor a temporary reference, inside a
    session there is a current path, and the store holds temporary strokes
    only while the temporary reference is set. *)
Definition session_invariant (s : State) : Prop :=
  (isDrawing s = false ->
     currentPath s = None /\ temporaryEraserStroke s = None) /\
  (isDrawing s = true -> currentPath s <> None) /\
  (temporaryEraserStroke s = None -> uncommitted (strokes s) = []).

(** The counterexample to C3: the eraser is selected and the mouse button
    goes down twice, at clock readings 1 and 2, with no session end in
    between. *)
Definition erase_down_twice : list (Z * Event) :=
  [(0, click button_eraser);
   (1, mousedown (mouse_at 15 10));
   (2, mousedown (mouse_at 30 10))].

(** A pen stroke committed at reading 1, an eraser stroke over it begun at
    reading 2 under the default eraser width 15 and committed at reading 3. *)
Definition draw_then_erase : list (Z * Event) :=
  [(1, mousedown (mouse_at 0 0));
   (1, mousemove (mouse_at 10 0));
   (1, mouseup);
   (2, click button_eraser);
   (2, mousedown (mouse_at 5 0));
   (3, mouseup)].

(** Then [updateOptions({ eraserWidth: 40 })], and a second pen stroke,
    whose commit at reading 6 is the next composite pass. *)
Definition widen_then_draw : list (Z * Event) :=
  [(4, call_updateOptions
         {| opt_lineWidth := None; opt_lineColor := None;
            opt_toolPosition := None; opt_zIndex := None;
            opt_eraserWidth := Some 40 |});
   (5, click button_pen);
   (5, mousedown (mouse_at 0 50));
   (6, mouseup)].

(** [{ eraserWidth: 40 }], the instance after [draw_then_erase] and a call
    of [updateOptions] with it, and the mask the next pass builds for the
    pen stroke. *)
Definition widen : PenToolOptions :=
  {| opt_lineWidth := None; opt_lineColor := None;
     opt_toolPosition := None; opt_zIndex := None;
     opt_eraserWidth := Some 40 |}.

Definition widened : State :=
  updateOptions widen (run draw_then_erase (new no_options)).

Definition widened_eraser_path : SVGPathElement :=
  {| attr_class := Some "eraser-path"; attr_stroke := Some "black";
     attr_stroke_width := 40; attr_d := [MoveTo 5 0] |}.

Definition widened_mask : Mask :=
  {| mask_id := 0; mask_paths := [widened_eraser_path] |}.

(** The [stroke-width] of every path of every mask, mask by mask. *)
Definition mask_widths (s : State) : list (list Z) :=
  map (fun m => map attr_stroke_width (mask_paths m)) (default [] (defs s)).

(** The pen goes down at (10, 10) and moves to (20, 10); the host calls
    [clearAll()]; the button is released at clock reading 3. *)
Definition draw_clear : list (Z * Event) :=
  [(0, mousedown (mouse_at 10 10));
   (1, mousemove (mouse_at 20 10));
   (2, call_clearAll)].

Definition draw_clear_release : list (Z * Event) :=
  draw_clear ++ [(3, mouseup)].

(** A pointer sample: the position of the mouse, or of the single finger
    of a touch event, with the bounding rectangle read by the handler. *)
Inductive Sample : Type :=
| mouse_sample (event : MouseEvent)
| touch_sample (touch : Touch) (rect_left rect_top : Z).

(** The coordinates a handler computes from a sample. *)
Definition sample_x (p : Sample) : Z :=
  match p with
  | mouse_sample event => clientX event - Dom.rect_left event
  | touch_sample touch rect_left _ => touch_clientX touch - rect_left
  end.

Definition sample_y (p : Sample) : Z :=
  match p with
  | mouse_sample event => clientY event - Dom.rect_top event
  | touch_sample touch _ rect_top => touch_clientY touch - rect_top
  end.

Definition single_touch (touch : Touch) (rect_left rect_top : Z)
  : TouchEvent :=
  {| touches := [touch]; touch_rect_left := rect_left;
     touch_rect_top := rect_top |}.

(** The event that begins a session at a sample, and the event that
    extends the session to a sample. *)
Definition down_event (p : Sample) : Event :=
  match p with
  | mouse_sample event => mousedown event
  | touch_sample touch rect_left rect_top =>
      touchstart (single_touch touch rect_left rect_top)
  end.

Definition move_event (p : Sample) : Event :=
  match p with
  | mouse_sample event => mousemove event
  | touch_sample touch rect_left rect_top =>
      touchmove (single_touch touch rect_left rect_top)
  end.

Definition move_events (moves : list (Z * Sample)) : list (Z * Event) :=
  map (fun m => (m.1, move_event m.2)) moves.

(** A session: a start, moves, and the event that ends it, each with the
    clock reading at its delivery. *)
Definition session (start : Z * Sample) (moves : list (Z * Sample))
    (finish : Z * Event) : list (Z * Event) :=
  (start.1, down_event start.2) :: move_events moves ++ [finish].

Definition line_to (p : Sample) : PathCmd := LineTo (sample_x p) (sample_y p).

(** The path data captured by a session: the start point, then one
    line per move. *)
Definition captured (start : Sample) (moves : list (Z * Sample))
  : list PathCmd :=
  MoveTo (sample_x start) (sample_y start) :: map (fun m => line_to m.2) moves.

(** A session is in progress on the path [ref], whose data is [data]. *)
Definition sampling (ref : nat) (data : list PathCmd) (s : State) : Prop :=
  isDrawing s = true /\
  currentPath s = Some ref /\
  currentPathData s = data /\
  attr_d <$> heap s !! ref = Some data.

(** The path [startDrawing] creates, with data [data]. *)
Definition pen_path (s : State) (data : list PathCmd) : SVGPathElement :=
  {| attr_class := None; attr_stroke := Some (lineColor s);
     attr_stroke_width := lineWidth s; attr_d := data |}.

(** The state of an instance while a pen stroke begun in state [s] is being
    drawn and its path holds [data]. *)
Definition pen_live (s : State) (data : list PathCmd) : State :=
  set_drawingContainer (drawingContainer s ++ [LivePath (length (heap s))])
    (set_currentPathData data
       (set_currentPath (Some (length (heap s)))
          (set_heap (heap s ++ [pen_path s data]) (set_isDrawing true s)))).

(** The stroke a session end pushes for a path begun in state [s]. *)
Definition committed_stroke (s : State) (now : Z) : Stroke :=
  {| type := currentTool s; element := length (heap s); timestamp := now;
     isTemporary := false |}.

(** The path element a child of the drawing container paints, if it is a
    clone. *)
Definition painted (n : Node) : option SVGPathElement :=
  match n with
  | LivePath _ => None
  | PathNode el => Some el
  | MaskedGroup _ el => Some el
  end.

(** No reference dangles: the paths named by the strokes of the store, by
    [currentPath] and by the temporary eraser stroke are in the heap. *)
Definition references_valid (s : State) : Prop :=
  (forall st, In st (strokes s) -> (element st < length (heap s))%nat) /\
  (forall ref, currentPath s = Some ref -> (ref < length (heap s))%nat) /\
  (forall t, temporaryEraserStroke s = Some t ->
     (element t < length (heap s))%nat).

(** The pen is down at the origin: a session is in progress. *)
Definition pen_is_down : State :=
  run [(0, mousedown (mouse_at 0 0))] (new no_options).

(** The DOM is the one a composite pass builds from the store, the heap
    and the eraser width as they are now. *)
Definition composited (s : State) : Prop :=
  drawingContainer s =
    (renderPens (heap s) (eraserWidth s) (eraserStrokes (strokes s)) 0
       (penStrokes (strokes s))).1 /\
  defs s =
    Some (renderPens (heap s) (eraserWidth s) (eraserStrokes (strokes s)) 0
            (penStrokes (strokes s))).2.

(** The path [startErasing] creates, with data [data]. *)
Definition eraser_path (s : State) (data : list PathCmd) : SVGPathElement :=
  {| attr_class := Some "eraser-path"; attr_stroke := None;
     attr_stroke_width := eraserWidth s; attr_d := data |}.

(** The temporary stroke [startErasing] pushes in state [s]. *)
Definition temporary_stroke (s : State) (now : Z) : Stroke :=
  {| type := eraser; element := length (heap s); timestamp := now;
     isTemporary := true |}.

(** An erase session begun in state [s0] at reading [t0] is in progress in
    state [s], and its path holds [data]. *)
Definition erasing (s0 : State) (t0 : Z) (data : list PathCmd) (s : State)
  : Prop :=
  heap s = heap s0 ++ [eraser_path s0 data] /\
  strokes s = sort_by_timestamp (strokes s0 ++ [temporary_stroke s0 t0]) /\
  temporaryEraserStroke s = Some (temporary_stroke s0 t0) /\
  currentPath s = Some (length (heap s0)) /\
  currentPathData s = data /\
  isDrawing s = true /\
  currentTool s = eraser /\
  eraserWidth s = eraserWidth s0 /\
  lineWidth s = lineWidth s0 /\
  lineColor s = lineColor s0 /\
  composited s.

(** A touch event that does not carry exactly one touch. *)
Definition multi_touch (event : TouchEvent) : Prop :=
  length (touches event) <> 1%nat.

(** Outside a session the eraser indicator is hidden. *)
Definition indicator_invariant (s : State) : Prop :=
  isDrawing s = false -> eraserIndicator s = None.

(** Options that set every number to zero and the colour to the empty
    string. *)
Definition zero_options : PenToolOptions :=
  {| opt_lineWidth := Some 0; opt_lineColor := Some "";
     opt_toolPosition := None; opt_zIndex := Some 0;
     opt_eraserWidth := Some 0 |}.

(** A touch event with two fingers. *)
Definition two_fingers : TouchEvent :=
  {| touches := [ {| touch_clientX := 1; touch_clientY := 1 |};
                  {| touch_clientX := 9; touch_clientY := 9 |} ];
     touch_rect_left := 0; touch_rect_top := 0 |}.


(** Options that set a colour and a pen width and nothing else. *)
Definition restyle : PenToolOptions :=
  {| opt_lineWidth := Some 9; opt_lineColor := Some "red";
     opt_toolPosition := None; opt_zIndex := None;
     opt_eraserWidth := None |}.

(** A pen stroke committed at reading 1, then the eraser button. *)
Definition drawn_eraser_selected : State :=
  run [(1, mousedown (mouse_at 0 0));
       (1, mousemove (mouse_at 10 0));
       (1, mouseup);
       (2, click button_eraser)] (new no_options).

(** Three pen strokes A, B, C drawn one after the other on a clock that is
    set back in between: their sessions end at readings 7, 5 and 9. *)
Definition clock_set_back : list (Z * Event) :=
  session (6, mouse_sample (mouse_at 0 0))
    [(6, mouse_sample (mouse_at 5 0))] (7, mouseup) ++
  session (4, mouse_sample (mouse_at 0 10))
    [(4, mouse_sample (mouse_at 5 10))] (5, mouseup) ++
  session (8, mouse_sample (mouse_at 0 20))
    [(8, mouse_sample (mouse_at 5 20))] (9, mouseup).

End Vocabulary.

Section ToolSwitchVocabulary.
Import PenToolJs.

(** An initialised instance, and the same after [disable()]. *)
Definition ready : State := init (new false).
Definition disabled : State := disable ready.

End ToolSwitchVocabulary.

Section InputVocabulary.
Import Dom PenToolJsInput.

(** The pen went down at (3, 4) and the hand tool was then selected from
    the toolbar: a session is in progress under the hand tool. *)
Definition hand_selected_while_drawing : State :=
  handleToolSelect hand
    (handleDrawStart (mouse_at 3 4) 0 (initialised 3 "#000000" 15)).

(** The eraser is selected and no session is in progress. *)
Definition eraser_idle : State :=
  handleToolSelect eraser (initialised 3 "#000000" 15).

(** One finger at (5, 5), or at (500, 5), over an [<svg>] of 100 by 100
    whose corner is the origin. *)
Definition finger_at (x y : Z) : BoundedTouchEvent :=
  {| touch_event :=
       {| touches := [ {| touch_clientX := x; touch_clientY := y |} ];
          touch_rect_left := 0; touch_rect_top := 0 |};
     rect_width := 100; rect_height := 100 |}.

End InputVocabulary.

(** * Properties *)

Import Dom.

(** ** The sort of the stroke store *)

Section Sorting.
Import PenTool.

Lemma insert_by_timestamp_perm a l :
  Permutation (a :: l) (insert_by_timestamp a l).
Proof.
  induction l as [|b l IH]; simpl; [reflexivity|].
  destruct (timestamp a <=? timestamp b); [reflexivity|].
  rewrite perm_swap. now apply perm_skip.
Qed.

Lemma sort_by_timestamp_perm l : Permutation l (sort_by_timestamp l).
Proof.
  induction l as [|a l IH]; simpl; [reflexivity|].
  rewrite <- insert_by_timestamp_perm. now apply perm_skip.
Qed.

Lemma sort_by_timestamp_In l x : In x (sort_by_timestamp l) <-> In x l.
Proof.
  split; apply Permutation_in;
    [symmetry|]; apply sort_by_timestamp_perm.
Qed.

Lemma insert_by_timestamp_sorted a l :
  StronglySorted timestamp_le l ->
  StronglySorted timestamp_le (insert_by_timestamp a l).
Proof.
  induction 1 as [|b l Hl IH Hb]; simpl.
  - repeat constructor.
  - destruct (Z.leb_spec (timestamp a) (timestamp b)) as [Hab|Hab].
    + constructor; [now constructor|].
      constructor; [exact Hab|].
      eapply List.Forall_impl; [|exact Hb].
      unfold timestamp_le; intros; lia.
    + constructor; [exact IH|].
      eapply Permutation_Forall; [apply insert_by_timestamp_perm|].
      constructor; [unfold timestamp_le; lia | exact Hb].
Qed.

Lemma sort_by_timestamp_sorted l :
  StronglySorted timestamp_le (sort_by_timestamp l).
Proof.
  induction l; simpl; [constructor | now apply insert_by_timestamp_sorted].
Qed.

Lemma insert_by_timestamp_stable t a l :
  with_timestamp t (insert_by_timestamp a l) = with_timestamp t (a :: l).
Proof.
  unfold with_timestamp.
  induction l as [|b l IH]; simpl; [reflexivity|].
  destruct (Z.leb_spec (timestamp a) (timestamp b)) as [Hab|Hab];
    [reflexivity|].
  simpl. rewrite IH. simpl.
  destruct (Z.eqb_spec (timestamp a) t), (Z.eqb_spec (timestamp b) t);
    try reflexivity; lia.
Qed.

(** The sort is stable: strokes of equal timestamp keep their order. *)
Lemma sort_by_timestamp_stable t l :
  with_timestamp t (sort_by_timestamp l) = with_timestamp t l.
Proof.
  induction l as [|a l IH]; simpl; [reflexivity|].
  rewrite insert_by_timestamp_stable.
  unfold with_timestamp in *. simpl. now rewrite IH.
Qed.

(** A store that is already in ascending order is left as it is. *)
Lemma sort_by_timestamp_sorted_id l :
  StronglySorted timestamp_le l -> sort_by_timestamp l = l.
Proof.
  induction 1 as [|a l Hl IH Ha]; simpl; [reflexivity|].
  rewrite IH. destruct l as [|b l]; simpl; [reflexivity|].
  inversion Ha as [|? ? Hab _]; subst.
  unfold timestamp_le in Hab.
  destruct (Z.leb_spec (timestamp a) (timestamp b)); [reflexivity | lia].
Qed.

Lemma StronglySorted_snoc l x :
  StronglySorted timestamp_le l ->
  Forall (fun a => timestamp_le a x) l ->
  StronglySorted timestamp_le (l ++ [x]).
Proof.
  induction 1 as [|a l Hl IH Ha]; intros Hx; simpl.
  - repeat constructor.
  - inversion Hx; subst. constructor; [now apply IH|].
    apply Forall_app; split; [exact Ha | now repeat constructor].
Qed.

End Sorting.

(** ** The compositor *)

Section Compositor.
Import PenTool.

Lemma renderPens_length h w er k pens :
  length (renderPens h w er k pens).1 = length pens.
Proof.
  revert k; induction pens as [|p pens IH]; intros k; simpl; [reflexivity|].
  specialize (IH (S k)).
  destruct (renderPens h w er (S k) pens) as [nodes masks].
  destruct (0 <? length (applicableErasers er p))%nat; simpl in *; congruence.
Qed.

(** The [i]-th child of the container is built from the [i]-th pen stroke. *)
Lemma renderPens_nodes h w er pens : forall k i d,
  pens !! i = Some d ->
  (renderPens h w er k pens).1 !! i =
    Some (if (0 <? length (applicableErasers er d))%nat
          then MaskedGroup (k + i) (cloneNode h (element d))
          else PathNode (cloneNode h (element d))).
Proof.
  induction pens as [|p pens IH]; intros k i d Hi; [discriminate|].
  simpl. specialize (IH (S k)).
  destruct (renderPens h w er (S k) pens) as [nodes masks].
  destruct i as [|i]; simpl in Hi.
  - injection Hi as ->. rewrite Nat.add_0_r.
    destruct (0 <? length (applicableErasers er d))%nat; reflexivity.
  - specialize (IH i d Hi). simpl in IH.
    replace (k + S i)%nat with (S k + i)%nat by lia.
    destruct (0 <? length (applicableErasers er p))%nat; exact IH.
Qed.

(** The masks of [<defs>] are those of the pen strokes that have an
    applicable eraser, each under the index of its pen stroke. *)
Lemma renderPens_masks h w er pens : forall k m,
  In m (renderPens h w er k pens).2 <->
  exists i d, pens !! i = Some d /\ applicableErasers er d <> [] /\
    m = {| mask_id := (k + i)%nat;
           mask_paths := map (eraserPath h w) (applicableErasers er d) |}.
Proof.
  induction pens as [|p pens IH]; intros k m; simpl.
  - split; [intros [] | intros (i & d & Hi & _); discriminate].
  - specialize (IH (S k) m).
    destruct (renderPens h w er (S k) pens) as [nodes masks]. simpl in IH.
    assert (Hshift : forall i, S (k + i) = (k + S i)%nat) by (intros; lia).
    destruct (applicableErasers er p) as [|e0 app] eqn:Happ; simpl.
    + rewrite IH. split.
      * intros (i & d & Hi & Hne & ->). exists (S i), d.
        rewrite <- Hshift. auto.
      * intros (i & d & Hi & Hne & ->). destruct i as [|i]; simpl in Hi.
        -- injection Hi as <-. congruence.
        -- exists i, d. rewrite Hshift. auto.
    + split.
      * intros [<- | Hin].
        -- exists 0%nat, p. rewrite Nat.add_0_r, Happ.
           split; [reflexivity|split; [discriminate|reflexivity]].
        -- apply IH in Hin as (i & d & Hi & Hne & ->). exists (S i), d.
           rewrite <- Hshift. auto.
      * intros (i & d & Hi & Hne & ->). destruct i as [|i]; simpl in Hi.
        -- injection Hi as <-. left. rewrite Nat.add_0_r, Happ. reflexivity.
        -- right. apply IH. exists i, d. rewrite Hshift. auto.
Qed.

Lemma renderStrokes_strokes s :
  strokes (renderStrokes s) = sort_by_timestamp (strokes s).
Proof.
  unfold renderStrokes.
  destruct (renderPens _ _ _ _ _) as [nodes masks]. reflexivity.
Qed.

Lemma renderStrokes_drawingContainer s :
  drawingContainer (renderStrokes s) =
  (renderPens (heap s) (eraserWidth s)
     (eraserStrokes (sort_by_timestamp (strokes s))) 0
     (penStrokes (sort_by_timestamp (strokes s)))).1.
Proof.
  unfold renderStrokes.
  destruct (renderPens _ _ _ _ _) as [nodes masks]. reflexivity.
Qed.

Lemma renderStrokes_defs s :
  defs (renderStrokes s) =
  Some (renderPens (heap s) (eraserWidth s)
          (eraserStrokes (sort_by_timestamp (strokes s))) 0
          (penStrokes (sort_by_timestamp (strokes s)))).2.
Proof.
  unfold renderStrokes.
  destruct (renderPens _ _ _ _ _) as [nodes masks]. reflexivity.
Qed.

(** Everything but the store, the container and [<defs>] is untouched. *)
Lemma renderStrokes_frame s :
  heap (renderStrokes s) = heap s /\
  isDrawing (renderStrokes s) = isDrawing s /\
  currentPath (renderStrokes s) = currentPath s /\
  currentPathData (renderStrokes s) = currentPathData s /\
  eraserIndicator (renderStrokes s) = eraserIndicator s /\
  temporaryEraserStroke (renderStrokes s) = temporaryEraserStroke s /\
  currentTool (renderStrokes s) = currentTool s /\
  eraserWidth (renderStrokes s) = eraserWidth s /\
  lineWidth (renderStrokes s) = lineWidth s /\
  lineColor (renderStrokes s) = lineColor s.
Proof.
  unfold renderStrokes.
  destruct (renderPens _ _ _ _ _) as [nodes masks]. repeat split.
Qed.

Lemma applicableErasers_In (l : list Stroke) (d e : Stroke) :
  In e (applicableErasers (eraserStrokes (sort_by_timestamp l)) d) <->
  In e l /\ type e = eraser /\ timestamp d < timestamp e.
Proof.
  unfold applicableErasers, eraserStrokes.
  rewrite !filter_In, sort_by_timestamp_In.
  destruct (type e); simpl; rewrite Z.gtb_ltb, Z.ltb_lt;
    intuition (try discriminate; auto).
Qed.

Lemma penStrokes_In (l : list Stroke) (d : Stroke) :
  In d (penStrokes (sort_by_timestamp l)) <-> In d l /\ type d = pen.
Proof.
  unfold penStrokes. rewrite filter_In, sort_by_timestamp_In.
  destruct (type d); simpl; intuition (try discriminate; auto).
Qed.

End Compositor.

(** ** Temporal masking *)

Section TemporalMasking.
Import PenTool.

(** C1.  In every state of the store, a composite pass ([renderStrokes])
    clips a pen stroke [d] by exactly the eraser strokes of the store whose
    timestamp is strictly greater than [d]'s: those, and no eraser with a
    timestamp less than or equal to [d]'s, are the paths of [d]'s mask.
    Every pen stroke of the store has a child in the drawing container, at
    its position [i] among the pen strokes in timestamp order.  When no
    eraser is strictly later the child is a path with the very attributes
    of [d]'s own path (class, colour, width, data), appended directly, and
    no mask carries its index.  Otherwise the child is that same path
    wrapped in the group of mask [i], and the mask of index [i] is in
    [<defs>] with one path for each strictly later eraser and nothing else:
    the eraser's own path data and class, painted black, with the
    configured eraser width. *)
Theorem C1_temporal_masking (s : State) (d : Stroke) :
  In d (strokes s) -> type d = pen ->
  let s' := renderStrokes s in
  let pens := penStrokes (strokes s') in
  let clip := applicableErasers (eraserStrokes (strokes s')) d in
  let own_path (st : Stroke) := heap s !!! element st in
  let black (e : Stroke) :=
    {| attr_class := attr_class (own_path e);
       attr_stroke := Some "black";
       attr_stroke_width := eraserWidth s;
       attr_d := attr_d (own_path e) |} in
  (forall e, In e clip <->
     In e (strokes s) /\ type e = eraser /\ timestamp d < timestamp e) /\
  (exists i, pens !! i = Some d) /\
  forall i, pens !! i = Some d ->
    (clip = [] ->
       drawingContainer s' !! i = Some (PathNode (own_path d)) /\
       forall m, In m (default [] (defs s')) -> mask_id m <> i) /\
    (clip <> [] ->
       drawingContainer s' !! i = Some (MaskedGroup i (own_path d)) /\
       (forall m, In m (default [] (defs s')) ->
          (mask_id m = i <->
           m = {| mask_id := i; mask_paths := map black clip |})) /\
       In {| mask_id := i; mask_paths := map black clip |}
          (default [] (defs s'))).
Proof.
  intros Hd Hpen s' pens clip own_path black. subst s' pens clip.
  rewrite renderStrokes_strokes, renderStrokes_drawingContainer,
    renderStrokes_defs. simpl.
  set (sorted := sort_by_timestamp (strokes s)).
  assert (Hblack : map black = map (eraserPath (heap s) (eraserWidth s)))
    by reflexivity.
  rewrite Hblack.
  change (own_path d) with (cloneNode (heap s) (element d)).
  clear Hblack black own_path.
  split; [intros e; apply applicableErasers_In|].
  split.
  { assert (Hin : In d (penStrokes sorted)) by (apply penStrokes_In; auto).
    apply list_elem_of_In, list_elem_of_lookup in Hin. exact Hin. }
  intros i Hi.
  pose proof (renderPens_nodes (heap s) (eraserWidth s)
                (eraserStrokes sorted) _ 0 i d Hi) as Hnode.
  simpl in Hnode.
  split; intros Hclip.
  - rewrite Hclip in Hnode. split; [exact Hnode|].
    intros m Hm Hid. apply renderPens_masks in Hm as (j & d' & Hj & Hne & ->).
    simpl in Hid. subst j. rewrite Hi in Hj. injection Hj as <-.
    contradiction.
  - assert (Hpos : (0 <? length
               (applicableErasers (eraserStrokes sorted) d))%nat = true).
    { destruct (applicableErasers (eraserStrokes sorted) d);
        [contradiction | reflexivity]. }
    rewrite Hpos in Hnode. split; [exact Hnode|].
    split.
    + intros m Hm. split; [|intros ->; reflexivity].
      intros Hid. apply renderPens_masks in Hm as (j & d' & Hj & Hne & ->).
      simpl in Hid. subst j. rewrite Hi in Hj. injection Hj as <-.
      reflexivity.
    + apply renderPens_masks. exists i, d. auto.
Qed.

(** On the example store the pen stroke of time 1 is clipped by the eraser
    of time 2: its child is its own path inside the group of mask 0, and
    mask 0 holds the eraser's path, black, 15 wide.  The pen stroke of time
    3 is not clipped by that eraser: its child is its own path, appended
    directly. *)
Lemma C1_temporal_masking_witness :
  (In example_eraser_2
     (applicableErasers
        (eraserStrokes (strokes (renderStrokes example_state)))
        example_pen_1)) /\
  ~ In example_eraser_2
     (applicableErasers
        (eraserStrokes (strokes (renderStrokes example_state)))
        example_pen_3) /\
  drawingContainer (renderStrokes example_state) !! 0%nat =
    Some (MaskedGroup 0
            {| attr_class := None; attr_stroke := Some "#000000";
               attr_stroke_width := 3;
               attr_d := [MoveTo 0 0; LineTo 10 0] |}) /\
  In {| mask_id := 0;
        mask_paths :=
          [{| attr_class := Some "eraser-path"; attr_stroke := Some "black";
              attr_stroke_width := 15; attr_d := [MoveTo 5 0] |}] |}
     (default [] (defs (renderStrokes example_state))) /\
  drawingContainer (renderStrokes example_state) !! 1%nat =
    Some (PathNode
            {| attr_class := None; attr_stroke := Some "#000000";
               attr_stroke_width := 3;
               attr_d := [MoveTo 0 5; LineTo 10 5] |}).
Proof.
  assert (H1 : In example_pen_1 (strokes example_state)) by (simpl; auto).
  assert (H3 : In example_pen_3 (strokes example_state)) by (simpl; auto).
  destruct (C1_temporal_masking example_state example_pen_1 H1 eq_refl)
    as (Hclip1 & _ & Hchild1).
  destruct (C1_temporal_masking example_state example_pen_3 H3 eq_refl)
    as (Hclip3 & _ & Hchild3).
  destruct (Hchild1 0%nat eq_refl) as [_ Hmasked].
  destruct Hmasked as (Hnode1 & _ & Hmask1); [discriminate|].
  destruct (Hchild3 1%nat eq_refl) as [Hplain _].
  destruct (Hplain eq_refl) as [Hnode3 _].
  split; [|split; [|split; [|split]]].
  - apply Hclip1. repeat split; simpl; auto; lia.
  - intros H. apply Hclip3 in H. simpl in H. lia.
  - exact Hnode1.
  - exact Hmask1.
  - exact Hnode3.
Defined.

End TemporalMasking.

(** ** What each handler does to the fields *)

Section Handlers.
Import PenTool.

Lemma renderStrokes_heap s : heap (renderStrokes s) = heap s.
Proof. apply renderStrokes_frame. Qed.
Lemma renderStrokes_isDrawing s : isDrawing (renderStrokes s) = isDrawing s.
Proof. apply renderStrokes_frame. Qed.
Lemma renderStrokes_currentPath s :
  currentPath (renderStrokes s) = currentPath s.
Proof. apply renderStrokes_frame. Qed.
Lemma renderStrokes_currentPathData s :
  currentPathData (renderStrokes s) = currentPathData s.
Proof. apply renderStrokes_frame. Qed.
Lemma renderStrokes_eraserIndicator s :
  eraserIndicator (renderStrokes s) = eraserIndicator s.
Proof. apply renderStrokes_frame. Qed.
Lemma renderStrokes_temporaryEraserStroke s :
  temporaryEraserStroke (renderStrokes s) = temporaryEraserStroke s.
Proof. apply renderStrokes_frame. Qed.
Lemma renderStrokes_currentTool s :
  currentTool (renderStrokes s) = currentTool s.
Proof. apply renderStrokes_frame. Qed.
Lemma renderStrokes_eraserWidth s :
  eraserWidth (renderStrokes s) = eraserWidth s.
Proof. apply renderStrokes_frame. Qed.
Lemma renderStrokes_lineWidth s : lineWidth (renderStrokes s) = lineWidth s.
Proof. apply renderStrokes_frame. Qed.
Lemma renderStrokes_lineColor s : lineColor (renderStrokes s) = lineColor s.
Proof. apply renderStrokes_frame. Qed.

Lemma hideEraserIndicator_frame s :
  heap (hideEraserIndicator s) = heap s /\
  drawingContainer (hideEraserIndicator s) = drawingContainer s /\
  defs (hideEraserIndicator s) = defs s /\
  isDrawing (hideEraserIndicator s) = isDrawing s /\
  currentPath (hideEraserIndicator s) = currentPath s /\
  currentPathData (hideEraserIndicator s) = currentPathData s /\
  strokes (hideEraserIndicator s) = strokes s /\
  temporaryEraserStroke (hideEraserIndicator s) = temporaryEraserStroke s /\
  currentTool (hideEraserIndicator s) = currentTool s /\
  eraserWidth (hideEraserIndicator s) = eraserWidth s /\
  lineWidth (hideEraserIndicator s) = lineWidth s /\
  lineColor (hideEraserIndicator s) = lineColor s /\
  eraserIndicator (hideEraserIndicator s) = None.
Proof.
  unfold hideEraserIndicator.
  destruct (eraserIndicator s) eqn:E; simpl; repeat split; exact E.
Qed.

Lemma hideEraserIndicator_heap s : heap (hideEraserIndicator s) = heap s.
Proof. apply hideEraserIndicator_frame. Qed.
Lemma hideEraserIndicator_drawingContainer s :
  drawingContainer (hideEraserIndicator s) = drawingContainer s.
Proof. apply hideEraserIndicator_frame. Qed.
Lemma hideEraserIndicator_defs s : defs (hideEraserIndicator s) = defs s.
Proof. apply hideEraserIndicator_frame. Qed.
Lemma hideEraserIndicator_isDrawing s :
  isDrawing (hideEraserIndicator s) = isDrawing s.
Proof. apply hideEraserIndicator_frame. Qed.
Lemma hideEraserIndicator_currentPath s :
  currentPath (hideEraserIndicator s) = currentPath s.
Proof. apply hideEraserIndicator_frame. Qed.
Lemma hideEraserIndicator_currentPathData s :
  currentPathData (hideEraserIndicator s) = currentPathData s.
Proof. apply hideEraserIndicator_frame. Qed.
Lemma hideEraserIndicator_strokes s :
  strokes (hideEraserIndicator s) = strokes s.
Proof. apply hideEraserIndicator_frame. Qed.
Lemma hideEraserIndicator_temporaryEraserStroke s :
  temporaryEraserStroke (hideEraserIndicator s) = temporaryEraserStroke s.
Proof. apply hideEraserIndicator_frame. Qed.
Lemma hideEraserIndicator_currentTool s :
  currentTool (hideEraserIndicator s) = currentTool s.
Proof. apply hideEraserIndicator_frame. Qed.
Lemma hideEraserIndicator_eraserWidth s :
  eraserWidth (hideEraserIndicator s) = eraserWidth s.
Proof. apply hideEraserIndicator_frame. Qed.
Lemma hideEraserIndicator_lineWidth s :
  lineWidth (hideEraserIndicator s) = lineWidth s.
Proof. apply hideEraserIndicator_frame. Qed.
Lemma hideEraserIndicator_lineColor s :
  lineColor (hideEraserIndicator s) = lineColor s.
Proof. apply hideEraserIndicator_frame. Qed.

End Handlers.

Create Rewrite HintDb fields.
#[export] Hint Rewrite
renderStrokes_strokes renderStrokes_heap renderStrokes_isDrawing
renderStrokes_currentPath renderStrokes_currentPathData
renderStrokes_eraserIndicator renderStrokes_temporaryEraserStroke
renderStrokes_currentTool renderStrokes_eraserWidth
renderStrokes_lineWidth renderStrokes_lineColor
hideEraserIndicator_heap hideEraserIndicator_drawingContainer
hideEraserIndicator_defs hideEraserIndicator_isDrawing
hideEraserIndicator_currentPath hideEraserIndicator_currentPathData
hideEraserIndicator_strokes hideEraserIndicator_temporaryEraserStroke
hideEraserIndicator_currentTool hideEraserIndicator_eraserWidth
hideEraserIndicator_lineWidth hideEraserIndicator_lineColor
: fields.

(** Reads a field through the calls that leave it alone. *)
Ltac fields := repeat (progress (simpl; autorewrite with fields)).

(** ** Stray and duplicate events, clearing *)

Section Guards.
Import PenTool.

Lemma filter_length_perm (f : Stroke -> bool) (l l' : list Stroke) :
  Permutation l l' ->
  length (List.filter f l) = length (List.filter f l').
Proof.
  induction 1 as [|x l l' _ IH|x y l|l l' l'' _ IH1 _ IH2]; simpl.
  - reflexivity.
  - destruct (f x); simpl; congruence.
  - destruct (f x), (f y); reflexivity.
  - congruence.
Qed.

Lemma committed_sort_length l :
  length (committed (sort_by_timestamp l)) = length (committed l).
Proof.
  symmetry. apply filter_length_perm, sort_by_timestamp_perm.
Qed.

Lemma committed_idempotent l : committed (committed l) = committed l.
Proof.
  unfold committed. induction l as [|a l IH]; simpl; [reflexivity|].
  destruct (isTemporary a) eqn:E; simpl; [exact IH|].
  rewrite E. simpl. now rewrite IH.
Qed.

Lemma handleDrawEnd_idle now s :
  isDrawing s = false -> handleDrawEnd now s = s.
Proof. intros H. unfold handleDrawEnd. now rewrite H. Qed.

Lemma handleDrawEnd_isDrawing now s :
  isDrawing (handleDrawEnd now s) = false.
Proof.
  unfold handleDrawEnd. destruct (isDrawing s) eqn:E; simpl; [|exact E].
  fields. reflexivity.
Qed.

(** The store after a session end that has a path to commit. *)
Lemma handleDrawEnd_strokes now s ref :
  isDrawing s = true -> currentPath s = Some ref ->
  strokes (handleDrawEnd now s) =
  sort_by_timestamp
    ((match temporaryEraserStroke s with
      | Some _ => committed (strokes s)
      | None => strokes s
      end) ++
     [{| type := currentTool s; element := ref; timestamp := now;
         isTemporary := false |}]).
Proof.
  intros Hd Hp. unfold handleDrawEnd. rewrite Hd, Hp. simpl.
  destruct (temporaryEraserStroke s); fields; reflexivity.
Qed.

(** C8.  Stray events leave the store, and every other field, as they
    are: a mouse or touch move with no session in progress is a no-op, a
    session end with no session in progress is a no-op.  An end signal
    that closes a session with a path commits exactly one stroke, and a
    second end signal for the same session (any of mouse-up, touch-end,
    touch-cancel, at any clock reading) changes nothing. *)
Theorem C8_stray_and_duplicate_events (s : State) (now1 now2 : Z)
    (end1 end2 : Event) :
  is_end_signal end1 = true -> is_end_signal end2 = true ->
  (isDrawing s = false ->
     (forall now event, dispatch now (mousemove event) s = s) /\
     (forall now event, dispatch now (touchmove event) s = s) /\
     dispatch now1 end1 s = s) /\
  dispatch now2 end2 (dispatch now1 end1 s) = dispatch now1 end1 s /\
  (isDrawing s = true -> currentPath s <> None ->
     length (committed (strokes (dispatch now1 end1 s))) =
       S (length (committed (strokes s))) /\
     strokes (dispatch now2 end2 (dispatch now1 end1 s)) =
       strokes (dispatch now1 end1 s)).
Proof.
  intros He1 He2.
  assert (H1 : dispatch now1 end1 s = handleDrawEnd now1 s)
    by (destruct end1; try discriminate; reflexivity).
  assert (H2 : forall s', dispatch now2 end2 s' = handleDrawEnd now2 s')
    by (destruct end2; try discriminate; reflexivity).
  rewrite H1, !H2.
  assert (Hdup : handleDrawEnd now2 (handleDrawEnd now1 s) =
                 handleDrawEnd now1 s)
    by apply handleDrawEnd_idle, handleDrawEnd_isDrawing.
  split; [|split].
  - intros Hidle. repeat split.
    + intros now event. simpl. unfold handleDrawMove. now rewrite Hidle.
    + intros now event. simpl. unfold handleTouchMove. now rewrite Hidle.
    + now apply handleDrawEnd_idle.
  - exact Hdup.
  - intros Hd Hp. rewrite Hdup. split; [|reflexivity].
    destruct (currentPath s) as [ref|] eqn:Eref; [|contradiction].
    rewrite (handleDrawEnd_strokes now1 s ref Hd Eref).
    rewrite committed_sort_length. unfold committed at 1.
    rewrite List.filter_app, List.length_app. simpl.
    fold (committed (match temporaryEraserStroke s with
                     | Some _ => committed (strokes s)
                     | None => strokes s end)).
    destruct (temporaryEraserStroke s);
      [rewrite committed_idempotent|]; lia.
Qed.

Lemma clearAll_strokes s : strokes (clearAll s) = [].
Proof.
  unfold clearAll. rewrite hideEraserIndicator_strokes.
  destruct (defs (set_strokes [] (set_drawingContainer [] s))); reflexivity.
Qed.

(** C9.  [clearAll()] leaves the store empty; called again at once it
    leaves the store empty again and changes no field at all.  The method
    dereferences only the [<svg>] and the drawing container, which the
    constructor of this build always creates, so it is a total function of
    the state: no call of it throws. *)
Theorem C9_clearAll_idempotent (s : State) :
  strokes (clearAll s) = [] /\
  strokes (clearAll (clearAll s)) = [] /\
  clearAll (clearAll s) = clearAll s.
Proof.
  destruct s as [h dc df dr cp cpd ei st te lw lc tp zi ct ew].
  unfold clearAll, hideEraserIndicator; simpl.
  destruct df, ei; simpl; repeat split.
Qed.

End Guards.

(** ** Timestamps *)

Section Timestamps.
Import PenTool.

Lemma committed_In l st :
  In st (committed l) <-> In st l /\ isTemporary st = false.
Proof.
  unfold committed. rewrite filter_In.
  destruct (isTemporary st); simpl; intuition congruence.
Qed.

Lemma startDrawing_strokes x y s : strokes (startDrawing x y s) = strokes s.
Proof. reflexivity. Qed.

Lemma continueDrawing_strokes x y s :
  strokes (continueDrawing x y s) = strokes s.
Proof. unfold continueDrawing. destruct (currentPath s); reflexivity. Qed.

Lemma startErasing_strokes x y now s :
  strokes (startErasing x y now s) =
  sort_by_timestamp
    (strokes s ++
     [{| type := eraser; element := length (heap s); timestamp := now;
         isTemporary := true |}]).
Proof. unfold startErasing. fields. reflexivity. Qed.

Lemma continueErasing_strokes_In x y s st :
  In st (strokes (continueErasing x y s)) <-> In st (strokes s).
Proof.
  unfold continueErasing. destruct (currentPath s); [|reflexivity].
  simpl. destruct (temporaryEraserStroke s); fields; [|reflexivity].
  apply sort_by_timestamp_In.
Qed.

(** C2, as stated, fails.  The same eraser path (element 0) is stored
    under timestamp 10 while the session lasts and under timestamp 20
    once the session has ended. *)
Lemma C2_counterexample :
  strokes (run erase_down (new no_options)) =
    [{| type := eraser; element := 0; timestamp := 10;
        isTemporary := true |}] /\
  strokes (run erase_down_up (new no_options)) =
    [{| type := eraser; element := 0; timestamp := 20;
        isTemporary := false |}].
Proof. split; reflexivity. Qed.

(** C2, amended.  The timestamp under which a stroke is stored once
    committed is the clock reading at the end of its session.  Starting a
    pen stroke stores nothing; starting an eraser stroke stores a
    temporary stroke under the reading at that moment.  A session end
    with a path to commit drops the temporary strokes (when the temporary
    reference is set) and pushes the path as a new stroke whose timestamp
    is the reading at the end.  From then on the timestamp is never
    reassigned: after any event, every committed stroke of the store is a
    committed stroke that was there before, with all its fields, or the
    stroke that this very session end has pushed. *)
Theorem C2_timestamp_is_reading_at_session_end
    (now : Z) (ev : Event) (s : State) :
  (forall x y, strokes (startDrawing x y s) = strokes s) /\
  (forall x y,
     strokes (startErasing x y now s) =
     sort_by_timestamp
       (strokes s ++
        [{| type := eraser; element := length (heap s); timestamp := now;
            isTemporary := true |}])) /\
  (forall ref, isDrawing s = true -> currentPath s = Some ref ->
     strokes (handleDrawEnd now s) =
     sort_by_timestamp
       ((match temporaryEraserStroke s with
         | Some _ => committed (strokes s)
         | None => strokes s
         end) ++
        [{| type := currentTool s; element := ref; timestamp := now;
            isTemporary := false |}])) /\
  (forall st, In st (committed (strokes (dispatch now ev s))) ->
     In st (committed (strokes s)) \/
     (is_end_signal ev = true /\ isDrawing s = true /\
      exists ref, currentPath s = Some ref /\
        st = {| type := currentTool s; element := ref; timestamp := now;
                isTemporary := false |})).
Proof.
  split; [intros; apply startDrawing_strokes|].
  split; [intros; apply startErasing_strokes|].
  split; [intros; now apply handleDrawEnd_strokes|].
  assert (Hend : forall st,
    In st (committed (strokes (handleDrawEnd now s))) ->
    In st (committed (strokes s)) \/
    (isDrawing s = true /\
     exists ref, currentPath s = Some ref /\
       st = {| type := currentTool s; element := ref; timestamp := now;
               isTemporary := false |})).
  { intros st Hst. destruct (isDrawing s) eqn:Hd;
      [|rewrite handleDrawEnd_idle in Hst by exact Hd; now left].
    destruct (currentPath s) as [ref|] eqn:Hp.
    - rewrite (handleDrawEnd_strokes now s ref Hd Hp) in Hst.
      apply committed_In in Hst as [Hst Hc].
      apply sort_by_timestamp_In, in_app_or in Hst as [Hst|[<-|[]]].
      + left. apply committed_In.
        destruct (temporaryEraserStroke s); [|now split].
        apply committed_In in Hst. tauto.
      + right. split; [reflexivity|]. now exists ref.
    - left. revert Hst. unfold handleDrawEnd. rewrite Hd, Hp. fields. auto. }
  assert (Herase : forall x y st,
    In st (committed (strokes (startErasing x y now (set_isDrawing true s)))) ->
    In st (committed (strokes s))).
  { intros x y st Hst. rewrite startErasing_strokes in Hst.
    apply committed_In in Hst as [Hst Hc]. apply committed_In.
    apply sort_by_timestamp_In, in_app_or in Hst as [Hst|[<-|[]]];
      [now split | discriminate]. }
  assert (Hmove : forall x y st,
    In st (committed
             (strokes (match currentTool s with
                       | pen => continueDrawing x y s
                       | eraser => continueErasing x y s
                       end))) ->
    In st (committed (strokes s))).
  { intros x y st Hst. apply committed_In in Hst as [Hst Hc].
    apply committed_In. split; [|exact Hc].
    destruct (currentTool s);
      [now rewrite continueDrawing_strokes in Hst
      |now apply continueErasing_strokes_In in Hst]. }
  intros st Hst. destruct ev as [e|e| |e|e| | |b| |o]; simpl in Hst.
  - left. unfold handleDrawStart in Hst. simpl in Hst.
    destruct (currentTool s); [exact Hst | now apply Herase in Hst].
  - left. unfold handleDrawMove in Hst.
    destruct (isDrawing s); simpl in Hst; [now apply Hmove in Hst|exact Hst].
  - destruct (Hend st Hst) as [H|H]; [now left | right; now split].
  - left. unfold handleTouchStart in Hst.
    destruct (touches e) as [|t [|t' ts]]; try exact Hst. simpl in Hst.
    destruct (currentTool s); [exact Hst | now apply Herase in Hst].
  - left. unfold handleTouchMove in Hst.
    destruct (isDrawing s); simpl in Hst; [|exact Hst].
    destruct (touches e) as [|t [|t' ts]]; try exact Hst.
    now apply Hmove in Hst.
  - destruct (Hend st Hst) as [H|H]; [now left | right; now split].
  - destruct (Hend st Hst) as [H|H]; [now left | right; now split].
  - left. destruct b; simpl in Hst; revert Hst; fields; auto.
    rewrite clearAll_strokes. intros [].
  - rewrite clearAll_strokes in Hst. destruct Hst.
  - left. exact Hst.
Qed.

End Timestamps.

(** ** Uncommitted strokes *)

Section Uncommitted.
Import PenTool.

Lemma uncommitted_nil_iff l :
  uncommitted l = [] <-> forall st, In st l -> isTemporary st = false.
Proof.
  unfold uncommitted. induction l as [|a l IH]; simpl.
  - split; [intros _ st [] | reflexivity].
  - destruct (isTemporary a) eqn:E.
    + split; [discriminate|]. intros H.
      specialize (H a (or_introl eq_refl)). congruence.
    + rewrite IH. split.
      * intros H st [<-|Hst]; auto.
      * intros H st Hst. apply H. now right.
Qed.

Lemma uncommitted_committed l : uncommitted (committed l) = [].
Proof.
  apply uncommitted_nil_iff. intros st Hst.
  now apply committed_In in Hst.
Qed.

Lemma session_invariant_new options : session_invariant (new options).
Proof. repeat split; discriminate. Qed.

Lemma session_invariant_start x y now s :
  session_invariant s ->
  session_invariant
    (match currentTool s with
     | pen => startDrawing x y (set_isDrawing true s)
     | eraser => startErasing x y now (set_isDrawing true s)
     end).
Proof.
  intros (_ & _ & H3). destruct (currentTool s).
  - repeat split; try discriminate. exact H3.
  - unfold session_invariant, startErasing. fields.
    repeat split; discriminate.
Qed.

Lemma uncommitted_sort l :
  uncommitted (sort_by_timestamp l) = [] <-> uncommitted l = [].
Proof.
  rewrite !uncommitted_nil_iff.
  split; intros H st Hst; apply H; now apply sort_by_timestamp_In.
Qed.

Lemma session_invariant_continue x y s :
  session_invariant s ->
  session_invariant
    (match currentTool s with
     | pen => continueDrawing x y s
     | eraser => continueErasing x y s
     end).
Proof.
  intros Hinv. destruct (currentTool s).
  - unfold continueDrawing. destruct (currentPath s) eqn:E; [|exact Hinv].
    revert Hinv. unfold session_invariant. fields. tauto.
  - unfold continueErasing. destruct (currentPath s) eqn:E; [|exact Hinv].
    simpl. revert Hinv.
    destruct (temporaryEraserStroke s) eqn:Et;
      unfold session_invariant; fields; rewrite ?Et, ?uncommitted_sort;
      tauto.
Qed.

Lemma session_invariant_end now s :
  session_invariant s -> session_invariant (handleDrawEnd now s).
Proof.
  intros Hinv. unfold handleDrawEnd.
  destruct (isDrawing s) eqn:Hd; [|exact Hinv]. simpl.
  destruct Hinv as (H1 & H2 & H3).
  destruct (currentPath s) as [ref|] eqn:Hp; [|now destruct (H2 Hd)].
  unfold session_invariant.
  destruct (temporaryEraserStroke s) eqn:Et; fields;
    rewrite uncommitted_sort; unfold uncommitted;
    rewrite List.filter_app; simpl; rewrite app_nil_r.
  - fold (uncommitted (committed (strokes s))).
    rewrite uncommitted_committed.
    repeat split; auto; discriminate.
  - fold (uncommitted (strokes s)). rewrite (H3 eq_refl).
    repeat split; auto; discriminate.
Qed.

Lemma clearAll_frame s :
  isDrawing (clearAll s) = isDrawing s /\
  currentPath (clearAll s) = currentPath s /\
  currentPathData (clearAll s) = currentPathData s /\
  temporaryEraserStroke (clearAll s) = temporaryEraserStroke s /\
  currentTool (clearAll s) = currentTool s /\
  heap (clearAll s) = heap s.
Proof.
  unfold clearAll. fields.
  destruct (defs s); repeat split.
Qed.

Lemma session_invariant_clearAll s :
  session_invariant s -> session_invariant (clearAll s).
Proof.
  intros (H1 & H2 & H3).
  destruct (clearAll_frame s) as (Ed & Ep & _ & Et & _).
  unfold session_invariant.
  rewrite Ed, Ep, Et, clearAll_strokes. auto.
Qed.

Lemma session_invariant_dispatch now ev s :
  session_invariant s -> session_invariant (dispatch now ev s).
Proof.
  intros Hinv. destruct ev as [e|e| |e|e| | |b| |o]; simpl.
  - apply (session_invariant_start _ _ now s Hinv).
  - unfold handleDrawMove. destruct (isDrawing s); simpl; [|exact Hinv].
    now apply session_invariant_continue.
  - now apply session_invariant_end.
  - unfold handleTouchStart.
    destruct (touches e) as [|t [|t' ts]]; try exact Hinv.
    apply (session_invariant_start _ _ now s Hinv).
  - unfold handleTouchMove. destruct (isDrawing s); simpl; [|exact Hinv].
    destruct (touches e) as [|t [|t' ts]]; try exact Hinv.
    now apply session_invariant_continue.
  - now apply session_invariant_end.
  - now apply session_invariant_end.
  - destruct b; simpl; [| |now apply session_invariant_clearAll];
      revert Hinv; unfold session_invariant; fields; tauto.
  - now apply session_invariant_clearAll.
  - exact Hinv.
Qed.

Lemma session_invariant_run history : forall s,
  session_invariant s -> session_invariant (run history s).
Proof.
  induction history as [|[now ev] rest IH]; intros s Hinv; simpl; [exact Hinv|].
  now apply IH, session_invariant_dispatch.
Qed.

(** C3, as stated, fails.  After the second start the store holds two
    uncommitted strokes: the stale one was not removed. *)
Lemma C3_counterexample :
  uncommitted (strokes (run erase_down_twice (new no_options))) =
    [{| type := eraser; element := 0; timestamp := 1;
        isTemporary := true |};
     {| type := eraser; element := 1; timestamp := 2;
        isTemporary := true |}].
Proof. reflexivity. Qed.

(** C3, amended.  The start of an erase session removes nothing from the
    store: it adds one temporary stroke to the temporary strokes already
    there, so more than one uncommitted stroke can be in the store while a
    session lasts.  Uncommitted strokes are discarded at session end: in
    every state an instance can reach from its construction, the store
    holds no uncommitted stroke after [handleDrawEnd], and it holds none
    whenever no session is in progress. *)
Theorem C3_uncommitted_strokes_end_with_session
    (options : PenToolOptions) (history : list (Z * Event))
    (x y now : Z) :
  let s := run history (new options) in
  (isDrawing s = false -> uncommitted (strokes s) = []) /\
  uncommitted (strokes (handleDrawEnd now s)) = [] /\
  length (uncommitted (strokes (startErasing x y now s))) =
    S (length (uncommitted (strokes s))).
Proof.
  intros s.
  assert (Hinv : session_invariant s)
    by apply session_invariant_run, session_invariant_new.
  split; [|split].
  - destruct Hinv as (H1 & _ & H3). intros Hd. apply H3. now apply H1.
  - pose proof (session_invariant_end now s Hinv) as (H1 & _ & H3).
    apply H3, H1, handleDrawEnd_isDrawing.
  - rewrite startErasing_strokes. unfold uncommitted.
    rewrite <- (filter_length_perm _ _ _ (sort_by_timestamp_perm _)).
    rewrite List.filter_app, List.length_app. simpl. lia.
Qed.

End Uncommitted.

(** ** The width of the eraser in a composite pass *)

Section EraserWidth.
Import PenTool.

(** C4, as stated, fails.  The eraser stroke began under width 15, and its
    own path still says so, but the pass that follows the change of
    [eraserWidth] clips with width 40. *)
Lemma C4_counterexample :
  mask_widths (run draw_then_erase (new no_options)) = [[15]] /\
  mask_widths
    (run (draw_then_erase ++ widen_then_draw) (new no_options)) = [[40]] /\
  attr_stroke_width
    (cloneNode
       (heap (run (draw_then_erase ++ widen_then_draw) (new no_options)))
       1) = 15.
Proof. repeat split. Qed.

Lemma eraserPath_width h w e : attr_stroke_width (eraserPath h w e) = w.
Proof. reflexivity. Qed.

(** C4, amended.  The width used to render an eraser stroke's clip region
    is the [eraserWidth] configured when the composite pass runs, the same
    for every eraser stroke, not a width recorded with the stroke.
    [updateOptions] changes neither the store nor any path element, and
    runs no pass; but once it has set a new [eraserWidth], every path of
    every mask built by the next pass carries the new width, whatever the
    width under which its eraser stroke began. *)
Theorem C4_clip_width_is_configured_width
    (s : State) (options : PenToolOptions) :
  let s1 := updateOptions options s in
  strokes s1 = strokes s /\
  heap s1 = heap s /\
  drawingContainer s1 = drawingContainer s /\
  defs s1 = defs s /\
  eraserWidth s1 = default (eraserWidth s) (opt_eraserWidth options) /\
  forall m p,
    In m (default [] (defs (renderStrokes s1))) -> In p (mask_paths m) ->
    attr_stroke_width p = eraserWidth s1.
Proof.
  intros s1. repeat split.
  intros m p Hm Hp. rewrite renderStrokes_defs in Hm. simpl in Hm.
  apply renderPens_masks in Hm as (i & d & _ & _ & ->). simpl in Hp.
  apply in_map_iff in Hp as (e & <- & _). apply eraserPath_width.
Qed.

End EraserWidth.

(** ** Clearing in the middle of a session *)

Section ClearMidSession.
Import PenTool.

(** C5 fails on the code.  [clearAll()] empties the store but leaves
    [isDrawing] and [currentPath] as they are, so the release that ends
    the session pushes the path captured before the clear: the store is
    no longer empty, and the stroke is painted again. *)
Theorem C5_clearAll_keeps_the_live_stroke :
  strokes (run draw_clear (new no_options)) = [] /\
  isDrawing (run draw_clear (new no_options)) = true /\
  currentPath (run draw_clear (new no_options)) = Some 0%nat /\
  strokes (run draw_clear_release (new no_options)) =
    [{| type := pen; element := 0; timestamp := 3;
        isTemporary := false |}] /\
  drawingContainer (run draw_clear_release (new no_options)) =
    [PathNode {| attr_class := None; attr_stroke := Some "#000000";
                 attr_stroke_width := 3;
                 attr_d := [MoveTo 10 10; LineTo 20 10] |}].
Proof. repeat split. Qed.

End ClearMidSession.

(** ** Sessions *)

Section Sessions.
Import PenTool.

Lemma run_app l1 l2 s : run (l1 ++ l2) s = run l2 (run l1 s).
Proof.
  revert s; induction l1 as [|[now ev] l1 IH]; intros s; simpl;
    [reflexivity | apply IH].
Qed.

Lemma dispatch_down now p s :
  dispatch now (down_event p) s =
  match currentTool s with
  | pen => startDrawing (sample_x p) (sample_y p) (set_isDrawing true s)
  | eraser => startErasing (sample_x p) (sample_y p) now (set_isDrawing true s)
  end.
Proof. destruct p; reflexivity. Qed.

Lemma dispatch_move now p s :
  isDrawing s = true ->
  dispatch now (move_event p) s =
  match currentTool s with
  | pen => continueDrawing (sample_x p) (sample_y p) s
  | eraser => continueErasing (sample_x p) (sample_y p) s
  end.
Proof.
  intros Hd. destruct p; simpl;
    unfold handleDrawMove, handleTouchMove; rewrite Hd; reflexivity.
Qed.

Lemma dispatch_end now ev s :
  is_end_signal ev = true -> dispatch now ev s = handleDrawEnd now s.
Proof. destruct ev; try discriminate; reflexivity. Qed.

Lemma sampling_down now p s :
  sampling (length (heap s)) [MoveTo (sample_x p) (sample_y p)]
    (dispatch now (down_event p) s) /\
  currentTool (dispatch now (down_event p) s) = currentTool s.
Proof.
  rewrite dispatch_down. unfold sampling.
  destruct (currentTool s) eqn:Et.
  - simpl. rewrite list_lookup_middle by reflexivity. auto.
  - unfold startErasing. fields.
    rewrite list_lookup_middle by reflexivity. auto.
Qed.

Lemma setAttribute_d_twice data el :
  setAttribute_d data (setAttribute_d data el) = setAttribute_d data el.
Proof. reflexivity. Qed.

Lemma sampling_move now p ref data s :
  sampling ref data s ->
  sampling ref (data ++ [line_to p]) (dispatch now (move_event p) s) /\
  currentTool (dispatch now (move_event p) s) = currentTool s.
Proof.
  intros (Hd & Hp & Hdata & Hel). rewrite dispatch_move by exact Hd.
  destruct (heap s !! ref) as [el|] eqn:Hl; [|discriminate].
  unfold sampling, line_to.
  destruct (currentTool s) eqn:Et.
  - unfold continueDrawing, setPathData. rewrite Hp, Hdata. simpl.
    rewrite list_lookup_alter_eq, Hl. auto.
  - unfold continueErasing, setPathData. rewrite Hp. simpl. rewrite Hdata.
    destruct (temporaryEraserStroke s) as [temporary|]; fields.
    + destruct (decide (element temporary = ref)) as [->|Hne].
      * rewrite !list_lookup_alter_eq, Hl. auto.
      * rewrite list_lookup_alter_ne by exact Hne.
        rewrite list_lookup_alter_eq, Hl. auto.
    + rewrite list_lookup_alter_eq, Hl. auto.
Qed.

Lemma sampling_moves moves : forall ref data s,
  sampling ref data s ->
  sampling ref (data ++ map (fun m => line_to m.2) moves)
    (run (move_events moves) s) /\
  currentTool (run (move_events moves) s) = currentTool s.
Proof.
  induction moves as [|[now p] moves IH]; intros ref data s Hs; simpl.
  - now rewrite app_nil_r.
  - destruct (sampling_move now p ref data s Hs) as [Hs' Ht].
    destruct (IH ref _ _ Hs') as [Hs'' Ht'].
    rewrite <- app_assoc in Hs''. simpl in Hs''. split; congruence.
Qed.

Lemma sampling_end now ref data s :
  sampling ref data s ->
  In {| type := currentTool s; element := ref; timestamp := now;
        isTemporary := false |} (strokes (handleDrawEnd now s)) /\
  attr_d (cloneNode (heap (handleDrawEnd now s)) ref) = data.
Proof.
  intros (Hd & Hp & Hdata & Hel). split.
  - rewrite (handleDrawEnd_strokes now s ref Hd Hp).
    apply sort_by_timestamp_In, in_or_app. right. now left.
  - assert (Hh : heap (handleDrawEnd now s) = heap s).
    { unfold handleDrawEnd. rewrite Hd, Hp. simpl.
      destruct (temporaryEraserStroke s); fields; reflexivity. }
    rewrite Hh. unfold cloneNode.
    destruct (heap s !! ref) as [el|] eqn:Hl; [|discriminate].
    rewrite (list_lookup_total_correct _ _ _ Hl). simpl in Hel. congruence.
Qed.

(** C7.  A session ended by [touchcancel] leaves the instance in the very
    state a mouse-up or a touch-end at the same clock reading would: the
    three are bound to the same handler.  Whatever the state before, the
    tool, and the way the stroke was begun and extended (mouse or single
    touch), a stroke begun at one point and extended [n] times is committed
    by the cancel: the store then holds a committed stroke of the current
    tool for the session's path, stamped with the reading at the cancel, and
    the path holds the start point and all [n] extensions, [n + 1] points in
    the order they were captured. *)
Theorem C7_cancel_commits_all_points
    (s : State) (start : Z * Sample) (moves : list (Z * Sample)) (now : Z) :
  let cancelled := run (session start moves (now, touchcancel)) s in
  let stroke :=
    {| type := currentTool s; element := length (heap s); timestamp := now;
       isTemporary := false |} in
  cancelled = run (session start moves (now, mouseup)) s /\
  cancelled = run (session start moves (now, touchend)) s /\
  In stroke (strokes cancelled) /\
  attr_d (cloneNode (heap cancelled) (element stroke)) =
    captured start.2 moves /\
  length (attr_d (cloneNode (heap cancelled) (element stroke))) =
    S (length moves).
Proof.
  intros cancelled stroke. subst cancelled stroke.
  unfold session. simpl. rewrite !run_app. simpl.
  unfold handleTouchEnd.
  destruct (sampling_down start.1 start.2 s) as [Hs Ht].
  destruct (sampling_moves moves _ _ _ Hs) as [Hs' Ht'].
  destruct (sampling_end now _ _ _ Hs') as [Hin Hdata].
  rewrite Ht', Ht in Hin. simpl in Hdata.
  repeat split; try assumption.
  rewrite Hdata. unfold captured. simpl. now rewrite length_map.
Qed.

End Sessions.

(** ** References into the heap *)

Section References.
Import PenTool.

Lemma references_valid_start x y now s :
  references_valid s ->
  references_valid
    (match currentTool s with
     | pen => startDrawing x y (set_isDrawing true s)
     | eraser => startErasing x y now (set_isDrawing true s)
     end).
Proof.
  intros (Hs & Hp & Ht). unfold references_valid.
  destruct (currentTool s); [|unfold startErasing]; fields;
    rewrite length_app; simpl; repeat split.
  - intros st Hst. apply Hs in Hst. lia.
  - intros ref [= <-]. lia.
  - intros t Ht'. apply Ht in Ht'. lia.
  - intros st Hst.
    apply sort_by_timestamp_In, in_app_or in Hst as [Hst|[<-|[]]];
      [apply Hs in Hst|simpl]; lia.
  - intros ref [= <-]. lia.
  - intros t [= <-]. simpl. lia.
Qed.

Lemma references_valid_continue x y s :
  references_valid s ->
  references_valid
    (match currentTool s with
     | pen => continueDrawing x y s
     | eraser => continueErasing x y s
     end).
Proof.
  intros Hv. destruct (currentTool s).
  - unfold continueDrawing. destruct (currentPath s) eqn:E; [|exact Hv].
    revert Hv. unfold references_valid. fields.
    rewrite length_alter, E. tauto.
  - unfold continueErasing. destruct (currentPath s) eqn:E; [|exact Hv].
    simpl. revert Hv.
    destruct (temporaryEraserStroke s) eqn:Et; unfold references_valid;
      fields; rewrite ?length_alter, ?E, ?Et; [|tauto].
    intros (Hs & Hp & Ht). repeat split; auto.
    intros st Hst. now apply Hs, sort_by_timestamp_In.
Qed.

Lemma references_valid_end now s :
  references_valid s -> references_valid (handleDrawEnd now s).
Proof.
  intros Hv. unfold handleDrawEnd.
  destruct (isDrawing s) eqn:Hd; [|exact Hv]. simpl.
  destruct Hv as (Hs & Hp & Ht). unfold references_valid.
  destruct (currentPath s) as [ref|] eqn:Ep.
  - destruct (temporaryEraserStroke s) eqn:Et; fields;
      (repeat split; [|discriminate|try discriminate]).
    + intros st Hst.
      apply sort_by_timestamp_In, in_app_or in Hst as [Hst|[<-|[]]];
        [|simpl; now apply Hp].
      apply filter_In in Hst as [Hst _]. now apply Hs.
    + intros st Hst.
      apply sort_by_timestamp_In, in_app_or in Hst as [Hst|[<-|[]]];
        [now apply Hs|simpl; now apply Hp].
    + intros t Ht'. congruence.
  - fields. repeat split; auto.
Qed.

Lemma references_valid_clearAll s :
  references_valid s -> references_valid (clearAll s).
Proof.
  intros (Hs & Hp & Ht).
  destruct (clearAll_frame s) as (_ & Ep & _ & Et & _ & Eh).
  unfold references_valid. rewrite Ep, Et, Eh, clearAll_strokes.
  repeat split; auto. intros st [].
Qed.

Lemma references_valid_dispatch now ev s :
  references_valid s -> references_valid (dispatch now ev s).
Proof.
  intros Hv. destruct ev as [e|e| |e|e| | |b| |o]; simpl.
  - apply (references_valid_start _ _ now s Hv).
  - unfold handleDrawMove. destruct (isDrawing s); simpl; [|exact Hv].
    now apply references_valid_continue.
  - now apply references_valid_end.
  - unfold handleTouchStart.
    destruct (touches e) as [|t [|t' ts]]; try exact Hv.
    apply (references_valid_start _ _ now s Hv).
  - unfold handleTouchMove. destruct (isDrawing s); simpl; [|exact Hv].
    destruct (touches e) as [|t [|t' ts]]; try exact Hv.
    now apply references_valid_continue.
  - now apply references_valid_end.
  - now apply references_valid_end.
  - destruct b; simpl; [| |now apply references_valid_clearAll];
      revert Hv; unfold references_valid; fields; tauto.
  - now apply references_valid_clearAll.
  - exact Hv.
Qed.

(** In every state an instance can reach, every reference names a path of
    the heap: [cloneNode] never reads past its end. *)
Lemma references_valid_run history : forall s,
  references_valid s -> references_valid (run history s).
Proof.
  induction history as [|[now ev] rest IH]; intros s Hv; simpl; [exact Hv|].
  now apply IH, references_valid_dispatch.
Qed.

Lemma references_valid_new options : references_valid (new options).
Proof. repeat split; [intros st []|discriminate|discriminate]. Qed.

End References.

(** ** Paint order *)

Section PaintOrder.
Import PenTool.

Lemma pen_down now p s :
  currentTool s = pen ->
  dispatch now (down_event p) s =
  pen_live s [MoveTo (sample_x p) (sample_y p)].
Proof. intros Ht. rewrite dispatch_down, Ht. reflexivity. Qed.

Lemma pen_move now p s data :
  currentTool s = pen ->
  dispatch now (move_event p) (pen_live s data) =
  pen_live s (data ++ [line_to p]).
Proof.
  intros Ht. rewrite dispatch_move by reflexivity.
  change (currentTool (pen_live s data)) with (currentTool s). rewrite Ht.
  unfold continueDrawing, setPathData, pen_live. simpl.
  rewrite alter_app_r_alt by lia. rewrite Nat.sub_diag. reflexivity.
Qed.

Lemma pen_moves moves : forall s data,
  currentTool s = pen ->
  run (move_events moves) (pen_live s data) =
  pen_live s (data ++ map (fun m => line_to m.2) moves).
Proof.
  induction moves as [|[now p] moves IH]; intros s data Ht; simpl.
  - now rewrite app_nil_r.
  - rewrite pen_move by exact Ht. rewrite IH by exact Ht.
    now rewrite <- app_assoc.
Qed.

(** The fields of an instance after a whole pen session. *)
Lemma pen_session s start moves now ev :
  currentTool s = pen -> temporaryEraserStroke s = None ->
  is_end_signal ev = true ->
  let s' := run (session start moves (now, ev)) s in
  heap s' = heap s ++ [pen_path s (captured start.2 moves)] /\
  strokes s' = sort_by_timestamp (strokes s ++ [committed_stroke s now]) /\
  drawingContainer s' =
    (renderPens (heap s') (eraserWidth s) (eraserStrokes (strokes s')) 0
       (penStrokes (strokes s'))).1 /\
  defs s' =
    Some (renderPens (heap s') (eraserWidth s) (eraserStrokes (strokes s')) 0
            (penStrokes (strokes s'))).2 /\
  currentTool s' = pen /\
  temporaryEraserStroke s' = None /\
  lineColor s' = lineColor s /\
  lineWidth s' = lineWidth s /\
  eraserWidth s' = eraserWidth s.
Proof.
  intros Ht Htemp Hev s'. subst s'. unfold session. simpl.
  rewrite run_app, pen_down by exact Ht. rewrite pen_moves by exact Ht.
  simpl. rewrite dispatch_end by exact Hev.
  fold (captured start.2 moves).
  unfold handleDrawEnd. simpl. rewrite Htemp.
  fields. rewrite renderStrokes_drawingContainer, renderStrokes_defs. simpl.
  unfold committed_stroke. rewrite Ht. repeat split. exact Htemp.
Qed.

Lemma renderPens_painted h w er pens : forall k,
  map painted (renderPens h w er k pens).1 =
  map (fun d => Some (cloneNode h (element d))) pens.
Proof.
  induction pens as [|p pens IH]; intros k; simpl; [reflexivity|].
  specialize (IH (S k)).
  destruct (renderPens h w er (S k) pens) as [nodes masks].
  destruct (0 <? length (applicableErasers er p))%nat; simpl in *;
    now rewrite IH.
Qed.

(** C6, as stated, fails.  The timestamp of a stroke is the reading of
    [Date.now()] at the end of its session, and the store is sorted by it:
    when the clock is set back between two sessions the later stroke is
    stored and painted first.  Drawn in the order A, B, C with sessions
    ending at readings 7, 5 and 9, the strokes are stored and painted in
    the order B, A, C. *)
Lemma C6_counterexample :
  strokes (run clock_set_back (new no_options)) =
    [{| type := pen; element := 1; timestamp := 5; isTemporary := false |};
     {| type := pen; element := 0; timestamp := 7; isTemporary := false |};
     {| type := pen; element := 2; timestamp := 9; isTemporary := false |}] /\
  drawingContainer (run clock_set_back (new no_options)) =
    [PathNode (pen_path (new no_options) [MoveTo 0 10; LineTo 5 10]);
     PathNode (pen_path (new no_options) [MoveTo 0 0; LineTo 5 0]);
     PathNode (pen_path (new no_options) [MoveTo 0 20; LineTo 5 20])].
Proof. split; reflexivity. Qed.

(** C6, amended.  Three pen strokes A, B, C committed in that order on a
    fresh instance, at clock readings ([Date.now()] at the end of each
    session) that do not decrease, with no eraser: the store holds exactly
    the three strokes in that order, and the drawing container holds
    exactly their three paths in that order, each appended directly and
    none masked, also when some of the readings are equal.  In general
    every composite pass first puts the store in ascending order of
    timestamp with a stable sort (same strokes, strokes of equal timestamp
    in their order of insertion) and paints the pen strokes in the order of
    the sorted store: paint order is the order of the readings, and is the
    order of creation whenever the clock does not go back. *)
Theorem C6_paint_order_is_creation_order
    (options : PenToolOptions)
    (startA startB startC : Z * Sample)
    (movesA movesB movesC : list (Z * Sample))
    (tA tB tC : Z) (endA endB endC : Event) :
  is_end_signal endA = true -> is_end_signal endB = true ->
  is_end_signal endC = true ->
  tA <= tB -> tB <= tC ->
  let s :=
    run (session startA movesA (tA, endA) ++
         session startB movesB (tB, endB) ++
         session startC movesC (tC, endC)) (new options) in
  let path start moves := pen_path (new options) (captured start.2 moves) in
  strokes s =
    [{| type := pen; element := 0; timestamp := tA; isTemporary := false |};
     {| type := pen; element := 1; timestamp := tB; isTemporary := false |};
     {| type := pen; element := 2; timestamp := tC; isTemporary := false |}] /\
  heap s = [path startA movesA; path startB movesB; path startC movesC] /\
  drawingContainer s =
    [PathNode (path startA movesA); PathNode (path startB movesB);
     PathNode (path startC movesC)] /\
  defs s = Some [] /\
  forall s0,
    strokes (renderStrokes s0) = sort_by_timestamp (strokes s0) /\
    StronglySorted timestamp_le (strokes (renderStrokes s0)) /\
    Permutation (strokes s0) (strokes (renderStrokes s0)) /\
    (forall t, with_timestamp t (strokes (renderStrokes s0)) =
               with_timestamp t (strokes s0)) /\
    map painted (drawingContainer (renderStrokes s0)) =
      map (fun d => Some (cloneNode (heap s0) (element d)))
        (penStrokes (strokes (renderStrokes s0))).
Proof.
  intros HeA HeB HeC HAB HBC s path. subst s path.
  rewrite !run_app.
  set (s0 := new options).
  destruct (pen_session s0 startA movesA tA endA eq_refl eq_refl HeA)
    as (HhA & HsA & _ & _ & HtA & HeA' & HcA & HwA & HewA).
  set (sA := run (session startA movesA (tA, endA)) s0) in *.
  destruct (pen_session sA startB movesB tB endB HtA HeA' HeB)
    as (HhB & HsB & _ & _ & HtB & HeB' & HcB & HwB & HewB).
  set (sB := run (session startB movesB (tB, endB)) sA) in *.
  destruct (pen_session sB startC movesC tC endC HtB HeB' HeC)
    as (HhC & HsC & HdC & HfC & _).
  set (sC := run (session startC movesC (tC, endC)) sB) in *.
  assert (HpB : forall data, pen_path sA data = pen_path s0 data)
    by (intros; unfold pen_path; now rewrite HcA, HwA).
  assert (HpC : forall data, pen_path sB data = pen_path s0 data)
    by (intros; unfold pen_path; now rewrite HcB, HwB, HcA, HwA).
  rewrite HpB in HhB. rewrite HpC in HhC.
  unfold committed_stroke in HsA, HsB, HsC.
  rewrite HtA, HhA in HsB. rewrite HtB, HhB, HhA in HsC.
  rewrite HhA in HhB. rewrite HhB in HhC. simpl in HhA, HhB, HhC.
  simpl in HsA. rewrite HsA in HsB. simpl in HsB.
  rewrite (proj2 (Z.leb_le tA tB) HAB) in HsB.
  rewrite HsB in HsC. simpl in HsC.
  rewrite (proj2 (Z.leb_le tB tC) HBC) in HsC. simpl in HsC.
  rewrite (proj2 (Z.leb_le tA tB) HAB) in HsC.
  split; [exact HsC|]. split; [exact HhC|].
  rewrite HdC, HfC, HsC, HhC.
  split; [reflexivity|]. split; [reflexivity|].
  intros s1. rewrite renderStrokes_strokes.
  split; [reflexivity|].
  split; [apply sort_by_timestamp_sorted|].
  split; [apply sort_by_timestamp_perm|].
  split; [intros t; apply sort_by_timestamp_stable|].
  rewrite renderStrokes_drawingContainer. apply renderPens_painted.
Qed.

End PaintOrder.

(** ** Switching tools through the public interface *)

Section ToolSwitch.
Import PenToolJs.

Lemma includes_In l x : includes l x = true <-> In x l.
Proof.
  unfold includes. rewrite existsb_exists. split.
  - intros (y & Hy & Heq). apply String.eqb_eq in Heq. now subst.
  - intros Hx. exists x. split; [exact Hx | apply String.eqb_refl].
Qed.

Lemma setActiveTool_currentTool toolName s :
  currentTool (state_of (setActiveTool toolName s)) =
  if isEnabled s && includes validTools toolName then toolName
  else currentTool s.
Proof.
  unfold setActiveTool.
  generalize (includes validTools toolName) as valid. intros valid.
  destruct (isEnabled s); simpl; [|reflexivity].
  destruct valid; simpl; [|reflexivity].
  destruct (toolbar s); simpl; [|reflexivity].
  destruct (svg s); simpl; [|reflexivity].
  destruct (toolName =? "hand")%string, (toolName =? "eraser")%string;
    reflexivity.
Qed.

(** C10.  [setActiveTool] checks its argument and the enabled flag before
    it touches the current tool.  Called while the instance is disabled, or
    with a name that is none of ['pen'], ['eraser'], ['hand'], it leaves the
    tool as it is: [getCurrentTool] returns afterwards what it returned
    before.  Called with one of the three names while the instance is
    enabled, [getCurrentTool] afterwards returns exactly that name (also
    when the call then fails on a toolbar that was never built). *)
Theorem C10_setActiveTool_validates (s : State) (toolName : string) :
  let s' := state_of (setActiveTool toolName s) in
  (isEnabled s = false \/ ~ In toolName validTools ->
   getCurrentTool s' = getCurrentTool s) /\
  (isEnabled s = true -> In toolName validTools ->
   getCurrentTool s' = toolName).
Proof.
  intros s'. subst s'. unfold getCurrentTool.
  rewrite setActiveTool_currentTool. split.
  - intros [Hoff|Hbad]; [now rewrite Hoff|].
    destruct (includes validTools toolName) eqn:E;
      [apply includes_In in E; contradiction|].
    now rewrite andb_false_r.
  - intros Hon Hin. apply includes_In in Hin. now rewrite Hon, Hin.
Qed.

(** On an initialised instance ['eraser'] is accepted and ['brush'] is
    refused; on a disabled instance ['eraser'] is refused too. *)
Lemma C10_setActiveTool_validates_witness :
  getCurrentTool (state_of (setActiveTool "eraser" ready)) = "eraser" /\
  getCurrentTool (state_of (setActiveTool "brush" ready)) = "pen" /\
  getCurrentTool (state_of (setActiveTool "eraser" disabled)) = "pen".
Proof.
  split; [|split].
  - apply (C10_setActiveTool_validates ready "eraser").
    + reflexivity.
    + simpl. auto.
  - apply (C10_setActiveTool_validates ready "brush").
    right. simpl. intros [H|[H|[H|[]]]]; discriminate.
  - apply (C10_setActiveTool_validates disabled "eraser").
    left. reflexivity.
Defined.

End ToolSwitch.

(** ** Instances of the statements above *)

Section Witnesses.
Import PenTool.

(** A mouse-up followed by a touch-end for the same pen stroke commits one
    stroke, and a move on a fresh instance does nothing. *)
Lemma C8_stray_and_duplicate_events_witness :
  dispatch 7 touchend (dispatch 5 mouseup pen_is_down) =
    dispatch 5 mouseup pen_is_down /\
  length (committed (strokes (dispatch 5 mouseup pen_is_down))) = 1%nat /\
  dispatch 9 (mousemove (mouse_at 3 3)) (new no_options) = new no_options.
Proof.
  destruct (C8_stray_and_duplicate_events pen_is_down 5 7 mouseup touchend
              eq_refl eq_refl) as (_ & Hdup & Hone).
  destruct (C8_stray_and_duplicate_events (new no_options) 5 7 mouseup
              touchend eq_refl eq_refl) as (Hidle & _).
  split; [exact Hdup|]. split.
  - apply Hone; [reflexivity | discriminate].
  - apply Hidle. reflexivity.
Defined.

(** The eraser stroke begun at reading 10 and ended at reading 20. *)
Lemma C2_timestamp_is_reading_at_session_end_witness :
  strokes (handleDrawEnd 20 (run erase_down (new no_options))) =
    sort_by_timestamp
      (committed (strokes (run erase_down (new no_options))) ++
       [{| type := eraser; element := 0; timestamp := 20;
           isTemporary := false |}]).
Proof.
  destruct (C2_timestamp_is_reading_at_session_end 20 mouseup
              (run erase_down (new no_options))) as (_ & _ & Hend & _).
  apply (Hend 0%nat); reflexivity.
Defined.

(** After a pen session and an eraser session no stroke is uncommitted. *)
Lemma C3_uncommitted_strokes_end_with_session_witness :
  uncommitted (strokes (run draw_then_erase (new no_options))) = [].
Proof.
  destruct (C3_uncommitted_strokes_end_with_session no_options
              draw_then_erase 0 0 0) as (Hidle & _).
  apply Hidle. reflexivity.
Defined.

(** The mask built after [eraserWidth] was set to 40. *)
Lemma C4_clip_width_is_configured_width_witness :
  In widened_mask (default [] (defs (renderStrokes widened))) /\
  In widened_eraser_path (mask_paths widened_mask) /\
  attr_stroke_width widened_eraser_path = eraserWidth widened.
Proof.
  assert (Hm : In widened_mask (default [] (defs (renderStrokes widened))))
    by (simpl; auto).
  assert (Hp : In widened_eraser_path (mask_paths widened_mask))
    by (simpl; auto).
  split; [exact Hm|]. split; [exact Hp|].
  destruct (C4_clip_width_is_configured_width
              (run draw_then_erase (new no_options)) widen)
    as (_ & _ & _ & _ & _ & H).
  apply (H widened_mask widened_eraser_path Hm Hp).
Defined.

(** Three pen strokes committed at readings 7, 7 and 9. *)
Lemma C6_paint_order_is_creation_order_witness :
  drawingContainer
    (run (session (0, mouse_sample (mouse_at 0 0))
            [(0, mouse_sample (mouse_at 5 0))] (7, mouseup) ++
          session (7, mouse_sample (mouse_at 0 10))
            [(7, mouse_sample (mouse_at 5 10))] (7, touchend) ++
          session (8, mouse_sample (mouse_at 0 20)) [] (9, touchcancel))
       (new no_options)) =
  [PathNode (pen_path (new no_options) [MoveTo 0 0; LineTo 5 0]);
   PathNode (pen_path (new no_options) [MoveTo 0 10; LineTo 5 10]);
   PathNode (pen_path (new no_options) [MoveTo 0 20])].
Proof.
  apply (C6_paint_order_is_creation_order no_options
           (0, mouse_sample (mouse_at 0 0))
           (7, mouse_sample (mouse_at 0 10))
           (8, mouse_sample (mouse_at 0 20))
           [(0, mouse_sample (mouse_at 5 0))]
           [(7, mouse_sample (mouse_at 5 10))]
           [] 7 7 9 mouseup touchend touchcancel);
    try reflexivity; lia.
Defined.

End Witnesses.

(** * More of the compositor *)

Section CompositorMore.
Import PenTool.

Lemma renderPens_mask_ids h w er pens : forall k,
  Forall (fun m => (k <= mask_id m)%nat) (renderPens h w er k pens).2 /\
  List.NoDup (map mask_id (renderPens h w er k pens).2).
Proof.
  induction pens as [|p pens IH]; intros k; simpl.
  - split; [constructor | apply List.NoDup_nil].
  - specialize (IH (S k)).
    destruct (renderPens h w er (S k) pens) as [nodes masks].
    simpl in IH. destruct IH as [Hge Hnd].
    assert (Hge' : Forall (fun m => (k <= mask_id m)%nat) masks).
    { eapply List.Forall_impl; [|exact Hge]. simpl. intros; lia. }
    destruct (0 <? length (applicableErasers er p))%nat; simpl;
      [|split; assumption].
    split; [constructor; [simpl; lia | exact Hge']|].
    apply List.NoDup_cons; [|exact Hnd].
    intros Hin. apply in_map_iff in Hin as (m & Hid & Hm).
    rewrite List.Forall_forall in Hge. apply Hge in Hm. lia.
Qed.

Lemma renderPens_nodes_inv h w er pens k i n :
  (renderPens h w er k pens).1 !! i = Some n ->
  exists d, pens !! i = Some d /\
    n = if (0 <? length (applicableErasers er d))%nat
        then MaskedGroup (k + i) (cloneNode h (element d))
        else PathNode (cloneNode h (element d)).
Proof.
  intros Hn. pose proof (lookup_lt_Some _ _ _ Hn) as Hlt.
  rewrite renderPens_length in Hlt.
  destruct (lookup_lt_is_Some_2 pens i Hlt) as [d Hd].
  exists d. split; [exact Hd|].
  rewrite (renderPens_nodes h w er pens k i d Hd) in Hn. congruence.
Qed.


(** X1.  A composite pass is a full recompute from the store: run a second
    time at once, it rebuilds the same drawing container and the same
    [<defs>] and leaves the store in the same order; no field differs. *)
Theorem X1_renderStrokes_idempotent (s : State) :
  renderStrokes (renderStrokes s) = renderStrokes s.
Proof.
  unfold renderStrokes.
  destruct (renderPens (heap s) (eraserWidth s)
              (eraserStrokes (sort_by_timestamp (strokes s))) 0
              (penStrokes (sort_by_timestamp (strokes s))))
    as [nodes masks] eqn:E.
  simpl.
  rewrite (sort_by_timestamp_sorted_id _ (sort_by_timestamp_sorted _)).
  rewrite E. reflexivity.
Qed.

(** X2.  What a composite pass leaves in the DOM is well formed: the mask
    ids of [<defs>] are pairwise distinct; a masked group is the [i]-th
    child only under the mask id [i], and that mask is in [<defs>] with at
    least one eraser path; every mask of [<defs>] has at least one path and
    is referred to by the child at the position of its id; and the
    container holds clones only, never the live path of a session. *)
Theorem X2_masks_well_formed (s : State) :
  let s' := renderStrokes s in
  let masks := default [] (defs s') in
  List.NoDup (map mask_id masks) /\
  (forall i j el,
     drawingContainer s' !! i = Some (MaskedGroup j el) ->
     j = i /\
     exists m, In m masks /\ mask_id m = i /\ mask_paths m <> []) /\
  (forall m, In m masks ->
     mask_paths m <> [] /\
     exists el,
       drawingContainer s' !! mask_id m =
         Some (MaskedGroup (mask_id m) el)) /\
  (forall i ref, drawingContainer s' !! i <> Some (LivePath ref)).
Proof.
  intros s' masks. subst s' masks.
  rewrite renderStrokes_drawingContainer, renderStrokes_defs. simpl.
  set (h := heap s). set (w := eraserWidth s).
  set (er := eraserStrokes (sort_by_timestamp (strokes s))).
  set (pens := penStrokes (sort_by_timestamp (strokes s))).
  split; [apply renderPens_mask_ids|]. split; [|split].
  - intros i j el Hn.
    apply renderPens_nodes_inv in Hn as (d & Hd & Hn).
    destruct (applicableErasers er d) as [|e0 app] eqn:Happ;
      simpl in Hn; [discriminate|].
    injection Hn as -> _. split; [reflexivity|].
    exists {| mask_id := i; mask_paths := map (eraserPath h w) (e0 :: app) |}.
    split; [|split; [reflexivity|discriminate]].
    apply renderPens_masks. exists i, d. rewrite Happ.
    split; [exact Hd|]. split; [discriminate|reflexivity].
  - intros m Hm. apply renderPens_masks in Hm as (i & d & Hd & Hne & ->).
    simpl. split.
    + destruct (applicableErasers er d); [contradiction|discriminate].
    + exists (cloneNode h (element d)).
      rewrite (renderPens_nodes h w er pens 0 i d Hd).
      destruct (applicableErasers er d); [contradiction|reflexivity].
  - intros i ref Hn. apply renderPens_nodes_inv in Hn as (d & _ & Hn).
    destruct (0 <? length (applicableErasers er d))%nat; discriminate.
Qed.


(** X4.  The style of the pen is fixed when a stroke begins.  A call of
    [updateOptions] that does not set [eraserWidth] changes nothing of what
    the next composite pass paints: same children, same masks, same store;
    the strokes already drawn keep their colour and width.  The pen stroke
    begun next carries the new colour and the new width, at the end of a
    heap whose older paths are untouched. *)
Theorem X4_pen_style_is_fixed_at_start
    (s : State) (options : PenToolOptions) (now : Z) (p : Sample) :
  opt_eraserWidth options = None ->
  currentTool s = pen ->
  renderStrokes (updateOptions options s) =
    updateOptions options (renderStrokes s) /\
  drawingContainer (renderStrokes (updateOptions options s)) =
    drawingContainer (renderStrokes s) /\
  defs (renderStrokes (updateOptions options s)) = defs (renderStrokes s) /\
  heap (dispatch now (down_event p) (updateOptions options s)) =
    heap s ++
    [{| attr_class := None;
        attr_stroke := Some (default (lineColor s) (opt_lineColor options));
        attr_stroke_width :=
          default (lineWidth s) (opt_lineWidth options);
        attr_d := [MoveTo (sample_x p) (sample_y p)] |}].
Proof.
  intros Hw Ht.
  assert (Hcomm : renderStrokes (updateOptions options s) =
                  updateOptions options (renderStrokes s)).
  { unfold renderStrokes, updateOptions. simpl. rewrite Hw. simpl.
    destruct (renderPens (heap s) (eraserWidth s)
                (eraserStrokes (sort_by_timestamp (strokes s))) 0
                (penStrokes (sort_by_timestamp (strokes s))))
      as [nodes masks].
    reflexivity. }
  split; [exact Hcomm|]. rewrite Hcomm.
  split; [reflexivity|]. split; [reflexivity|].
  rewrite dispatch_down.
  change (currentTool (updateOptions options s)) with (currentTool s).
  rewrite Ht. reflexivity.
Qed.

End CompositorMore.

(** * More of the input handlers *)

Section HandlersMore.
Import PenTool.

Lemma continue_isDrawing x y s :
  isDrawing (match currentTool s with
             | pen => continueDrawing x y s
             | eraser => continueErasing x y s
             end) = isDrawing s.
Proof.
  destruct (currentTool s).
  - unfold continueDrawing. destruct (currentPath s); reflexivity.
  - unfold continueErasing. destruct (currentPath s); [|reflexivity].
    simpl. destruct (temporaryEraserStroke s); fields; reflexivity.
Qed.

Lemma clearAll_eraserIndicator s : eraserIndicator (clearAll s) = None.
Proof. unfold clearAll. apply hideEraserIndicator_frame. Qed.

Lemma indicator_invariant_end now s :
  indicator_invariant s -> indicator_invariant (handleDrawEnd now s).
Proof.
  intros Hinv _. unfold handleDrawEnd.
  destruct (isDrawing s) eqn:Hd; simpl; [|now apply Hinv].
  apply hideEraserIndicator_frame.
Qed.

Lemma indicator_invariant_dispatch now ev s :
  indicator_invariant s -> indicator_invariant (dispatch now ev s).
Proof.
  intros Hinv. destruct ev as [e|e| |e|e| | |b| |o]; simpl.
  - unfold indicator_invariant, handleDrawStart. simpl.
    destruct (currentTool s); [|unfold startErasing]; fields; discriminate.
  - unfold handleDrawMove. destruct (isDrawing s) eqn:Hd; simpl;
      [|exact Hinv].
    unfold indicator_invariant. rewrite continue_isDrawing, Hd. discriminate.
  - now apply indicator_invariant_end.
  - unfold handleTouchStart.
    destruct (touches e) as [|t [|t' ts]]; try exact Hinv.
    unfold indicator_invariant. simpl.
    destruct (currentTool s); [|unfold startErasing]; fields; discriminate.
  - unfold handleTouchMove. destruct (isDrawing s) eqn:Hd; simpl;
      [|exact Hinv].
    destruct (touches e) as [|t [|t' ts]];
      try (unfold indicator_invariant; rewrite Hd; discriminate).
    unfold indicator_invariant. rewrite continue_isDrawing, Hd. discriminate.
  - now apply indicator_invariant_end.
  - now apply indicator_invariant_end.
  - intros _. destruct b; simpl;
      [apply hideEraserIndicator_frame | apply hideEraserIndicator_frame
      |apply clearAll_eraserIndicator].
  - intros _. apply clearAll_eraserIndicator.
  - exact Hinv.
Qed.

Lemma indicator_invariant_run history : forall s,
  indicator_invariant s -> indicator_invariant (run history s).
Proof.
  induction history as [|[now ev] rest IH]; intros s Hinv; simpl;
    [exact Hinv|].
  now apply IH, indicator_invariant_dispatch.
Qed.

(** X5.  In every state an instance reaches from its construction, by any
    history of events and calls, a session is in progress exactly when
    there is a current path; and outside a session nothing of a session is
    left behind: no temporary eraser reference and no eraser indicator on
    the screen. *)
Theorem X5_session_state_is_consistent
    (options : PenToolOptions) (history : list (Z * Event)) :
  let s := run history (new options) in
  (isDrawing s = true <-> currentPath s <> None) /\
  (isDrawing s = false ->
     temporaryEraserStroke s = None /\ eraserIndicator s = None).
Proof.
  intros s.
  assert (Hs : session_invariant s)
    by apply session_invariant_run, session_invariant_new.
  assert (Hi : indicator_invariant s)
    by (apply indicator_invariant_run; intros _; reflexivity).
  destruct Hs as (H1 & H2 & _). split; [split|].
  - exact H2.
  - intros Hp. destruct (isDrawing s) eqn:Hd; [reflexivity|].
    destruct (H1 eq_refl) as [Hnone _]. contradiction.
  - intros Hd. split; [now apply H1 | now apply Hi].
Qed.

(** X6.  A touch event that does not carry exactly one touch is ignored by
    [handleTouchStart] and by [handleTouchMove]: it changes no field, so it
    neither begins nor aborts a session, and a history gives the same final
    state with or without it. *)
Theorem X6_multi_touch_is_ignored
    (event : TouchEvent) (now : Z)
    (before after : list (Z * Event)) (s : State) :
  multi_touch event ->
  dispatch now (touchstart event) s = s /\
  dispatch now (touchmove event) s = s /\
  run (before ++ (now, touchstart event) :: after) s =
    run (before ++ after) s /\
  run (before ++ (now, touchmove event) :: after) s =
    run (before ++ after) s.
Proof.
  unfold multi_touch. intros Hm.
  assert (Hstart : forall s', dispatch now (touchstart event) s' = s').
  { intros s'. simpl. unfold handleTouchStart.
    destruct (touches event) as [|t [|t' ts]]; [reflexivity| |reflexivity].
    now contradiction Hm. }
  assert (Hmove : forall s', dispatch now (touchmove event) s' = s').
  { intros s'. simpl. unfold handleTouchMove.
    destruct (isDrawing s'); simpl; [|reflexivity].
    destruct (touches event) as [|t [|t' ts]]; [reflexivity| |reflexivity].
    now contradiction Hm. }
  split; [apply Hstart|]. split; [apply Hmove|].
  rewrite !run_app. cbn [run]. now rewrite Hstart, Hmove.
Qed.

(** X7.  The constructor takes a missing, zero or empty option for absent
    ([options.x || default]): the line width, the eraser width and the
    z-index of a new instance are never zero and its colour is never the
    empty string, and a width that is not zero is taken as given.
    [updateOptions] tests [!== undefined] instead: the same zero and the
    same empty string are stored as they are. *)
Theorem X7_constructor_defaults (options : PenToolOptions) (s : State) :
  lineWidth (new options) <> 0 /\
  eraserWidth (new options) <> 0 /\
  zIndex (new options) <> 0 /\
  lineColor (new options) <> "" /\
  (forall w, opt_lineWidth options = Some w -> w <> 0 ->
     lineWidth (new options) = w) /\
  (forall w, opt_eraserWidth options = Some w -> w <> 0 ->
     eraserWidth (new options) = w) /\
  lineWidth (new zero_options) = 3 /\
  eraserWidth (new zero_options) = 15 /\
  lineColor (new zero_options) = "#000000" /\
  lineWidth (updateOptions zero_options s) = 0 /\
  eraserWidth (updateOptions zero_options s) = 0 /\
  lineColor (updateOptions zero_options s) = "".
Proof.
  assert (Hz : forall o d, d <> 0 -> or_default_Z o d <> 0).
  { intros [v|] d Hd; simpl; [|exact Hd].
    destruct (Z.eqb_spec v 0); assumption. }
  assert (Hz' : forall w d, w <> 0 -> or_default_Z (Some w) d = w).
  { intros w d Hw. simpl. destruct (Z.eqb_spec w 0); [contradiction|].
    reflexivity. }
  repeat split; simpl.
  - apply Hz; lia.
  - apply Hz; lia.
  - apply Hz; lia.
  - destruct (opt_lineColor options) as [[|c v]|]; discriminate.
  - intros w -> Hw. now apply Hz'.
  - intros w -> Hw. now apply Hz'.
Qed.

(** X8.  While a pen stroke is being drawn nothing is stored and nothing is
    composited: after the start and any number of moves the store and
    [<defs>] are as before the session, the drawing container has one more
    child, the live path itself, and that path, the newest of the heap,
    carries the pen's colour and width and every point captured so far. *)
Theorem X8_pen_stroke_is_drawn_live
    (s : State) (start : Z * Sample) (moves : list (Z * Sample)) :
  currentTool s = pen ->
  let s' := run ((start.1, down_event start.2) :: move_events moves) s in
  strokes s' = strokes s /\
  defs s' = defs s /\
  drawingContainer s' = drawingContainer s ++ [LivePath (length (heap s))] /\
  heap s' = heap s ++ [pen_path s (captured start.2 moves)] /\
  isDrawing s' = true /\
  currentPath s' = Some (length (heap s)).
Proof.
  intros Ht s'. subst s'. simpl.
  rewrite pen_down by exact Ht. rewrite pen_moves by exact Ht.
  repeat split.
Qed.

End HandlersMore.

(** * Erase sessions *)

Section EraseSessions.
Import PenTool.

Lemma composited_renderStrokes s : composited (renderStrokes s).
Proof.
  unfold composited.
  rewrite renderStrokes_drawingContainer, renderStrokes_defs,
    renderStrokes_strokes, renderStrokes_heap, renderStrokes_eraserWidth.
  split; reflexivity.
Qed.

Lemma erasing_down now p s :
  currentTool s = eraser ->
  erasing s now [MoveTo (sample_x p) (sample_y p)]
    (dispatch now (down_event p) s).
Proof.
  intros Ht. rewrite dispatch_down, Ht. unfold erasing.
  split; [unfold startErasing; fields; reflexivity|].
  split; [rewrite startErasing_strokes; reflexivity|].
  do 8 (split; [unfold startErasing; fields; auto|]).
  apply composited_renderStrokes.
Qed.

Lemma erasing_move now p s0 t0 data s :
  erasing s0 t0 data s ->
  erasing s0 t0 (data ++ [line_to p]) (dispatch now (move_event p) s).
Proof.
  intros (Hh & Hs & Htemp & Hp & Hdata & Hd & Ht & Hw & Hlw & Hlc & _).
  rewrite dispatch_move by exact Hd. rewrite Ht.
  unfold continueErasing. rewrite Hp. simpl. rewrite Htemp.
  unfold erasing, setPathData, line_to.
  split.
  { fields. rewrite Hh, Hdata.
    rewrite !alter_app_r_alt by (simpl; lia). simpl.
    rewrite Nat.sub_diag. reflexivity. }
  split.
  { fields. rewrite Hs.
    apply sort_by_timestamp_sorted_id, sort_by_timestamp_sorted. }
  repeat (split; [fields; congruence|]).
  apply composited_renderStrokes.
Qed.

Lemma erasing_moves moves : forall s0 t0 data s,
  erasing s0 t0 data s ->
  erasing s0 t0 (data ++ map (fun m => line_to m.2) moves)
    (run (move_events moves) s).
Proof.
  induction moves as [|[now p] moves IH]; intros s0 t0 data s Hs; simpl.
  - now rewrite app_nil_r.
  - apply (erasing_move now p) in Hs. apply IH in Hs.
    now rewrite <- app_assoc in Hs.
Qed.

Lemma erasing_live s start moves :
  currentTool s = eraser ->
  erasing s start.1 (captured start.2 moves)
    (run ((start.1, down_event start.2) :: move_events moves) s).
Proof.
  intros Ht. simpl. apply (erasing_moves moves s start.1 [_]).
  now apply erasing_down.
Qed.

(** The fields of an instance after a whole erase session. *)
Lemma eraser_session s start moves now ev :
  currentTool s = eraser -> is_end_signal ev = true ->
  let s' := run (session start moves (now, ev)) s in
  heap s' = heap s ++ [eraser_path s (captured start.2 moves)] /\
  strokes s' =
    sort_by_timestamp
      (committed
         (sort_by_timestamp (strokes s ++ [temporary_stroke s start.1])) ++
       [committed_stroke s now]) /\
  composited s' /\
  currentTool s' = eraser /\
  temporaryEraserStroke s' = None /\
  lineColor s' = lineColor s /\
  lineWidth s' = lineWidth s /\
  eraserWidth s' = eraserWidth s.
Proof.
  intros Ht Hev s'. subst s'. unfold session.
  change ((start.1, down_event start.2) :: move_events moves ++ [(now, ev)])
    with (((start.1, down_event start.2) :: move_events moves) ++ [(now, ev)]).
  rewrite run_app.
  destruct (erasing_live s start moves Ht)
    as (Hh & Hs & Htemp & Hp & Hdata & Hd & Ht' & Hw & Hlw & Hlc & _).
  set (sk := run ((start.1, down_event start.2) :: move_events moves) s) in *.
  cbn [run]. rewrite dispatch_end by exact Hev.
  unfold handleDrawEnd. rewrite Hd, Hp, Htemp. simpl.
  unfold composited. fields.
  rewrite renderStrokes_drawingContainer, renderStrokes_defs. simpl.
  rewrite Hh, Hs, Ht', Hw, Hlw, Hlc. unfold committed_stroke. rewrite Ht.
  repeat split.
Qed.

(** X9.  Erasing is shown while it happens.  With the eraser selected, after
    the start of a session and any number of moves, every pen stroke of the
    store whose timestamp is smaller than the reading at the start is
    painted inside a masked group, and its mask holds the session's path
    painted black, with the configured eraser width and every point
    captured so far. *)
Theorem X9_erasing_is_live
    (s : State) (start : Z * Sample) (moves : list (Z * Sample))
    (d : Stroke) :
  currentTool s = eraser ->
  In d (strokes s) -> type d = pen -> timestamp d < start.1 ->
  let s' := run ((start.1, down_event start.2) :: move_events moves) s in
  exists i m,
    drawingContainer s' !! i =
      Some (MaskedGroup i (cloneNode (heap s') (element d))) /\
    In m (default [] (defs s')) /\
    mask_id m = i /\
    In {| attr_class := Some "eraser-path"; attr_stroke := Some "black";
          attr_stroke_width := eraserWidth s;
          attr_d := captured start.2 moves |} (mask_paths m).
Proof.
  intros Ht Hd Hpen Hlt s'.
  destruct (erasing_live s start moves Ht)
    as (Hh & Hs & _ & _ & _ & _ & _ & Hw & _ & _ & Hc & Hdefs).
  fold s' in Hh, Hs, Hw, Hc, Hdefs.
  set (temporary := temporary_stroke s start.1) in *.
  set (l := strokes s ++ [temporary]) in *.
  assert (Hin : In d (penStrokes (strokes s'))).
  { rewrite Hs. apply penStrokes_In. split; [|exact Hpen].
    apply in_or_app. now left. }
  apply list_elem_of_In, list_elem_of_lookup in Hin as [i Hi].
  assert (Happ : In temporary
                   (applicableErasers (eraserStrokes (strokes s')) d)).
  { rewrite Hs. apply applicableErasers_In.
    split; [apply in_or_app; right; now left|]. split; [reflexivity|].
    exact Hlt. }
  pose proof (renderPens_nodes (heap s') (eraserWidth s')
                (eraserStrokes (strokes s')) _ 0 i d Hi) as Hnode.
  simpl in Hnode.
  assert (Hne : applicableErasers (eraserStrokes (strokes s')) d <> [])
    by (intros E; rewrite E in Happ; destruct Happ).
  exists i,
    {| mask_id := i;
       mask_paths :=
         map (eraserPath (heap s') (eraserWidth s'))
           (applicableErasers (eraserStrokes (strokes s')) d) |}.
  split; [|split; [|split; [reflexivity|]]].
  - rewrite Hc, Hnode.
    destruct (applicableErasers (eraserStrokes (strokes s')) d);
      [contradiction|reflexivity].
  - rewrite Hdefs. simpl. apply renderPens_masks. exists i, d. auto.
  - simpl. apply in_map_iff. exists temporary. split; [|exact Happ].
    unfold eraserPath, cloneNode, temporary, temporary_stroke. simpl.
    rewrite Hh, Hw.
    rewrite (list_lookup_total_correct _ _ (eraser_path s (captured start.2 moves)));
      [reflexivity|].
    now apply list_lookup_middle.
Qed.

End EraseSessions.

(** * Whole gestures on a fresh instance *)

Section EndToEnd.
Import PenTool.

Lemma click_tool_fields now b s :
  b <> button_clear ->
  let s' := dispatch now (click b) s in
  heap s' = heap s /\ strokes s' = strokes s /\
  temporaryEraserStroke s' = temporaryEraserStroke s /\
  lineColor s' = lineColor s /\ lineWidth s' = lineWidth s /\
  eraserWidth s' = eraserWidth s /\
  currentTool s' = match b with button_eraser => eraser | _ => pen end.
Proof.
  intros Hb s'. subst s'. destruct b; [| |contradiction]; simpl; fields;
    repeat split.
Qed.

(** X10.  A pen stroke, then the eraser button, then an eraser stroke, on a
    fresh instance: the store holds the two committed strokes in the order
    of the clock readings at which their sessions ended, and the pen stroke
    is the only child of the drawing container.  It is clipped exactly when
    the eraser session ended at a strictly later reading than the pen
    session: then the child is the group of mask 0 and the mask holds the
    eraser's path, black, with the configured eraser width and all its
    points; when the two readings are equal, or the clock went back, the
    pen stroke is appended directly and [<defs>] is empty.  The reading at
    which the eraser session began plays no part. *)
Theorem X10_draw_then_erase
    (options : PenToolOptions)
    (startA startE : Z * Sample) (movesA movesE : list (Z * Sample))
    (tA tc tE : Z) (endA endE : Event) :
  is_end_signal endA = true -> is_end_signal endE = true ->
  let s :=
    run (session startA movesA (tA, endA) ++
         (tc, click button_eraser) ::
         session startE movesE (tE, endE)) (new options) in
  let pathA := pen_path (new options) (captured startA.2 movesA) in
  let clip :=
    {| attr_class := Some "eraser-path"; attr_stroke := Some "black";
       attr_stroke_width := eraserWidth (new options);
       attr_d := captured startE.2 movesE |} in
  let A := {| type := pen; element := 0; timestamp := tA;
              isTemporary := false |} in
  let E := {| type := eraser; element := 1; timestamp := tE;
              isTemporary := false |} in
  strokes s = (if tA <=? tE then [A; E] else [E; A]) /\
  drawingContainer s =
    [if tA <? tE then MaskedGroup 0 pathA else PathNode pathA] /\
  defs s =
    Some (if tA <? tE then [{| mask_id := 0; mask_paths := [clip] |}]
          else []).
Proof.
  intros HeA HeE s pathA clip A E. subst s pathA clip A E.
  rewrite run_app. cbn [run].
  set (s0 := new options).
  destruct (pen_session s0 startA movesA tA endA eq_refl eq_refl HeA)
    as (HhA & HsA & _ & _ & HtA & HtempA & HcA & HwA & HewA).
  set (sA := run (session startA movesA (tA, endA)) s0) in *.
  destruct (click_tool_fields tc button_eraser sA ltac:(discriminate))
    as (Hh1 & Hs1 & Htemp1 & Hc1 & Hw1 & Hew1 & Ht1).
  set (s1 := dispatch tc (click button_eraser) sA) in *.
  destruct (eraser_session s1 startE movesE tE endE Ht1 HeE)
    as (HhE & HsE & (HdcE & HdfE) & _ & _ & _ & _ & HewE).
  set (sE := run (session startE movesE (tE, endE)) s1) in *.
  unfold eraser_path in HhE. unfold temporary_stroke, committed_stroke in HsE.
  rewrite Hh1, HhA, Hew1, HewA in HhE. rewrite Hs1, HsA, Hh1, HhA, Ht1 in HsE.
  simpl in HhE, HsE.
  assert (Hstore : strokes sE =
    if tA <=? tE
    then [{| type := pen; element := 0; timestamp := tA;
             isTemporary := false |};
          {| type := eraser; element := 1; timestamp := tE;
             isTemporary := false |}]
    else [{| type := eraser; element := 1; timestamp := tE;
             isTemporary := false |};
          {| type := pen; element := 0; timestamp := tA;
             isTemporary := false |}]).
  { rewrite HsE. destruct (tA <=? startE.1); simpl;
      destruct (tA <=? tE); reflexivity. }
  split; [exact Hstore|].
  rewrite HdcE, HdfE, HhE, HewE, Hew1, HewA, Hstore.
  destruct (Z.leb_spec tA tE), (Z.ltb_spec tA tE); try lia; simpl;
    rewrite Z.gtb_ltb;
    destruct (Z.ltb_spec tA tE); try lia; simpl; split; reflexivity.
Qed.

(** X11.  The eraser button, an eraser stroke, the pen button, then a pen
    stroke, on a fresh instance whose clock does not go back between the
    end of the eraser session and the end of the pen session: the store
    holds the eraser stroke and then the pen stroke, the pen stroke is
    appended to the drawing container directly and [<defs>] is empty.  An
    eraser never removes ink that was drawn after it. *)
Theorem X11_erase_then_draw
    (options : PenToolOptions)
    (startE startA : Z * Sample) (movesE movesA : list (Z * Sample))
    (tc tE tc' tA : Z) (endE endA : Event) :
  is_end_signal endE = true -> is_end_signal endA = true ->
  tE <= tA ->
  let s :=
    run ((tc, click button_eraser) ::
         session startE movesE (tE, endE) ++
         (tc', click button_pen) ::
         session startA movesA (tA, endA)) (new options) in
  strokes s =
    [{| type := eraser; element := 0; timestamp := tE;
        isTemporary := false |};
     {| type := pen; element := 1; timestamp := tA;
        isTemporary := false |}] /\
  drawingContainer s =
    [PathNode (pen_path (new options) (captured startA.2 movesA))] /\
  defs s = Some [].
Proof.
  intros HeE HeA Hle s. subst s.
  cbn [run]. rewrite run_app. cbn [run].
  set (s0 := new options).
  destruct (click_tool_fields tc button_eraser s0 ltac:(discriminate))
    as (Hh1 & Hs1 & Htemp1 & Hc1 & Hw1 & Hew1 & Ht1).
  set (s1 := dispatch tc (click button_eraser) s0) in *.
  destruct (eraser_session s1 startE movesE tE endE Ht1 HeE)
    as (HhE & HsE & _ & _ & HtempE & HcE & HwE & HewE).
  set (sE := run (session startE movesE (tE, endE)) s1) in *.
  destruct (click_tool_fields tc' button_pen sE ltac:(discriminate))
    as (Hh2 & Hs2 & Htemp2 & Hc2 & Hw2 & Hew2 & Ht2).
  set (s2 := dispatch tc' (click button_pen) sE) in *.
  rewrite HtempE in Htemp2.
  destruct (pen_session s2 startA movesA tA endA Ht2 Htemp2 HeA)
    as (HhA & HsA & HdcA & HdfA & _).
  set (sA := run (session startA movesA (tA, endA)) s2) in *.
  unfold committed_stroke, temporary_stroke in HsE, HsA.
  rewrite Hs1, Hh1, Ht1 in HsE. simpl in HsE.
  rewrite Hh1 in HhE. simpl in HhE.
  rewrite Hs2, HsE, Hh2, HhE, Ht2 in HsA. simpl in HsA.
  rewrite (proj2 (Z.leb_le tE tA) Hle) in HsA.
  assert (Hp : pen_path s2 (captured startA.2 movesA) =
               pen_path s0 (captured startA.2 movesA))
    by (unfold pen_path; now rewrite Hc2, Hw2, HcE, HwE, Hc1, Hw1).
  rewrite Hh2, HhE, Hp in HhA. simpl in HhA.
  split; [exact HsA|].
  rewrite HdcA, HdfA, HsA, HhA. simpl. rewrite Z.gtb_ltb.
  destruct (Z.ltb_spec tA tE); [lia|]. split; reflexivity.
Qed.


End EndToEnd.

(** * The lifecycle of the JavaScript build *)

Section Lifecycle.
Import PenToolJs.

Lemma removeActive_inactive buttons :
  Forall (fun btn => active btn = false) (removeActive buttons).
Proof.
  unfold removeActive. apply List.Forall_forall. intros btn Hin.
  apply in_map_iff in Hin as (b & <- & _). reflexivity.
Qed.

Lemma removeActive_data_tool buttons :
  map data_tool (removeActive buttons) = map data_tool buttons.
Proof.
  unfold removeActive. rewrite List.map_map. reflexivity.
Qed.

Lemma addActive_data_tool toolName buttons :
  map data_tool (addActive toolName buttons) = map data_tool buttons.
Proof.
  induction buttons as [|btn rest IH]; simpl; [reflexivity|].
  destruct (data_tool btn =? toolName)%string; simpl; congruence.
Qed.

Lemma addActive_inactive toolName buttons :
  Forall (fun btn => active btn = false) buttons ->
  (forall btn, In btn (addActive toolName buttons) ->
     active btn = true -> data_tool btn = toolName) /\
  (length (List.filter active (addActive toolName buttons)) <= 1)%nat /\
  (In toolName (map data_tool buttons) ->
   exists btn, In btn (addActive toolName buttons) /\
     active btn = true /\ data_tool btn = toolName).
Proof.
  induction 1 as [|b rest Hb Hrest IH]; simpl.
  - repeat split; [intros btn [] | lia | intros []].
  - destruct IH as (IH1 & IH2 & IH3).
    assert (Hnone : List.filter active rest = []).
    { clear -Hrest. induction Hrest as [|x l Hx _ IHl]; simpl;
        [reflexivity|]. now rewrite Hx. }
    destruct (String.eqb_spec (data_tool b) toolName) as [Heq|Hne]; simpl.
    + rewrite Hnone. repeat split; [|simpl; lia|].
      * intros btn [<-|Hin] Hact; [exact Heq|].
        rewrite List.Forall_forall in Hrest. apply Hrest in Hin. congruence.
      * intros _. eexists. split; [left; reflexivity|]. split;
          [reflexivity|exact Heq].
    + rewrite Hb. repeat split; [|exact IH2|].
      * intros btn [<-|Hin] Hact; [congruence | now apply IH1].
      * intros [Heq|Hin]; [contradiction|].
        destruct (IH3 Hin) as (btn & Hbtn & Hact & Hname).
        exists btn. split; [now right|]. now split.
Qed.

(** X13.  Before [init()] an instance already counts as enabled, so
    [setActiveTool] with one of the three names passes both guards, assigns
    [currentTool], and then fails on the missing toolbar: the call throws,
    and the tool has been switched all the same, with nothing else
    changed. *)
Theorem X13_setActiveTool_before_init (s : State) (toolName : string) :
  toolbar s = None -> isEnabled s = true -> In toolName validTools ->
  setActiveTool toolName s = Thrown (set_currentTool toolName s) /\
  setActiveTool toolName (new (themeToggle s)) =
    Thrown (set_currentTool toolName (new (themeToggle s))).
Proof.
  intros Htb Hon Hin. apply includes_In in Hin.
  unfold setActiveTool. rewrite Hon, Hin. simpl. rewrite Htb.
  split; reflexivity.
Qed.

(** X14.  On an initialised, enabled instance [setActiveTool] with one of
    the three names returns normally and leaves the interface consistent
    with the tool: the toolbar has the same buttons, at most one of them is
    active, an active button is the one of the chosen tool, and the button
    of the chosen tool is active if the toolbar has one; the [<svg>] lets
    pointer events through exactly for ['hand'], the target element is in
    hand mode exactly for ['hand'], the eraser indicator is hidden unless
    the tool is ['eraser'], and nothing is printed. *)
Theorem X14_setActiveTool_updates_interface
    (s : State) (toolName : string) (style : SvgStyle)
    (buttons : list ToolButton) :
  svg s = Some style -> toolbar s = Some buttons ->
  isEnabled s = true -> In toolName validTools ->
  exists s' buttons',
    setActiveTool toolName s = Returned s' /\
    toolbar s' = Some buttons' /\
    map data_tool buttons' = map data_tool buttons /\
    (length (List.filter active buttons') <= 1)%nat /\
    (forall btn, In btn buttons' -> active btn = true ->
       data_tool btn = toolName) /\
    (In toolName (map data_tool buttons) ->
     exists btn, In btn buttons' /\ active btn = true /\
       data_tool btn = toolName) /\
    svg s' =
      Some {| display := display style;
              pointerEvents :=
                if (toolName =? "hand")%string then "none" else "auto" |} /\
    handMode s' = (toolName =? "hand")%string /\
    eraserIndicatorShown s' =
      (if (toolName =? "eraser")%string then eraserIndicatorShown s
       else false) /\
    console s' = console s.
Proof.
  intros Hsvg Htb Hon Hin. apply includes_In in Hin.
  pose proof (addActive_inactive toolName _ (removeActive_inactive buttons))
    as (H1 & H2 & H3).
  rewrite removeActive_data_tool in H3.
  unfold setActiveTool. rewrite Hon, Hin. simpl. rewrite Htb. simpl.
  rewrite Hsvg.
  eexists. exists (addActive toolName (removeActive buttons)).
  split; [reflexivity|].
  destruct (toolName =? "hand")%string, (toolName =? "eraser")%string;
    simpl; rewrite addActive_data_tool, removeActive_data_tool;
    repeat split; auto.
Qed.

(** X15.  [destroy()] clears the enabled flag and [init()] does not set it
    again.  After [destroy()] then [init()] the instance is built anew (an
    [<svg>], a toolbar, the pen selected) but still disabled: every call of
    [setActiveTool] is refused and the tool stays ['pen'] until [enable()]
    is called, which then succeeds.  A second [init()] on an initialised
    instance only prints a warning. *)
Theorem X15_reinitialised_instance_is_disabled
    (s : State) (toolName : string) :
  let s' := init (destroy s) in
  svg s' = Some {| display := ""; pointerEvents := "auto" |} /\
  toolbar s' = Some (createToolbar s) /\
  isEnabled s' = false /\
  getCurrentTool s' = "pen" /\
  getCurrentTool (state_of (setActiveTool toolName s')) = "pen" /\
  isEnabled (enable s') = true /\
  getCurrentTool (state_of (setActiveTool "eraser" (enable s'))) = "eraser" /\
  init s' =
    console_print warn
      "PenTool is already initialized. Call destroy() first if you want to reinitialize."
      s'.
Proof. repeat split. Qed.


End Lifecycle.

(** * Instances of the further statements *)

Section MoreWitnesses.
Import PenTool.

(** On the example store the first child is the group of mask 0. *)
Lemma X2_masks_well_formed_witness :
  exists m,
    In m (default [] (defs (renderStrokes example_state))) /\
    mask_id m = 0%nat /\ mask_paths m <> [].
Proof.
  destruct (X2_masks_well_formed example_state) as (_ & H & _).
  destruct (H 0%nat 0%nat (cloneNode example_heap 0) eq_refl) as [_ Hm].
  exact Hm.
Defined.


(** A new colour and width leave the stroke already drawn as it is. *)
Lemma X4_pen_style_is_fixed_at_start_witness :
  drawingContainer
    (renderStrokes
       (updateOptions restyle (run draw_clear_release (new no_options)))) =
  drawingContainer
    (renderStrokes (run draw_clear_release (new no_options))).
Proof.
  apply (X4_pen_style_is_fixed_at_start
           (run draw_clear_release (new no_options)) restyle 0
           (mouse_sample (mouse_at 0 0))); reflexivity.
Defined.

(** After a pen session and an eraser session nothing of a session is
    left. *)
Lemma X5_session_state_is_consistent_witness :
  temporaryEraserStroke (run draw_then_erase (new no_options)) = None /\
  eraserIndicator (run draw_then_erase (new no_options)) = None.
Proof.
  apply (X5_session_state_is_consistent no_options draw_then_erase).
  reflexivity.
Defined.

(** Two fingers on the surface while the pen is down. *)
Lemma X6_multi_touch_is_ignored_witness :
  multi_touch two_fingers /\
  dispatch 4 (touchmove two_fingers) pen_is_down = pen_is_down.
Proof.
  assert (H : multi_touch two_fingers) by (unfold multi_touch; simpl; lia).
  split; [exact H|].
  apply (X6_multi_touch_is_ignored two_fingers 4 [] [] pen_is_down H).
Defined.

(** A pen width of 9 is taken as given. *)
Lemma X7_constructor_defaults_witness : lineWidth (new restyle) = 9.
Proof.
  destruct (X7_constructor_defaults restyle (new no_options))
    as (_ & _ & _ & _ & H & _).
  apply (H 9); [reflexivity | lia].
Defined.

(** A pen stroke of three points in progress on a fresh instance. *)
Lemma X8_pen_stroke_is_drawn_live_witness :
  strokes
    (run ((0, down_event (mouse_sample (mouse_at 10 10))) ::
          move_events [(1, mouse_sample (mouse_at 20 10));
                       (2, mouse_sample (mouse_at 20 20))])
       (new no_options)) = [] /\
  heap
    (run ((0, down_event (mouse_sample (mouse_at 10 10))) ::
          move_events [(1, mouse_sample (mouse_at 20 10));
                       (2, mouse_sample (mouse_at 20 20))])
       (new no_options)) =
  [pen_path (new no_options) [MoveTo 10 10; LineTo 20 10; LineTo 20 20]].
Proof.
  destruct (X8_pen_stroke_is_drawn_live (new no_options)
              (0, mouse_sample (mouse_at 10 10))
              [(1, mouse_sample (mouse_at 20 10));
               (2, mouse_sample (mouse_at 20 20))] eq_refl)
    as (Hs & _ & _ & Hh & _).
  split; [exact Hs | exact Hh].
Defined.

(** The eraser goes down at reading 3 over the stroke drawn at reading 1
    and moves once. *)
Lemma X9_erasing_is_live_witness :
  exists i m,
    drawingContainer
      (run ((3, down_event (mouse_sample (mouse_at 5 0))) ::
            move_events [(4, mouse_sample (mouse_at 6 0))])
         drawn_eraser_selected) !! i =
      Some (MaskedGroup i
              (cloneNode
                 (heap
                    (run ((3, down_event (mouse_sample (mouse_at 5 0))) ::
                          move_events [(4, mouse_sample (mouse_at 6 0))])
                       drawn_eraser_selected)) 0)) /\
    In m (default []
            (defs
               (run ((3, down_event (mouse_sample (mouse_at 5 0))) ::
                     move_events [(4, mouse_sample (mouse_at 6 0))])
                  drawn_eraser_selected))) /\
    mask_id m = i /\
    In {| attr_class := Some "eraser-path"; attr_stroke := Some "black";
          attr_stroke_width := 15;
          attr_d := [MoveTo 5 0; LineTo 6 0] |} (mask_paths m).
Proof.
  apply (X9_erasing_is_live drawn_eraser_selected
           (3, mouse_sample (mouse_at 5 0))
           [(4, mouse_sample (mouse_at 6 0))]
           {| type := pen; element := 0; timestamp := 1;
              isTemporary := false |}).
  - reflexivity.
  - simpl. auto.
  - reflexivity.
  - simpl. lia.
Defined.

(** A pen stroke ended at reading 1, an eraser stroke ended at reading 3. *)
Lemma X10_draw_then_erase_witness :
  drawingContainer
    (run (session (0, mouse_sample (mouse_at 0 0))
            [(0, mouse_sample (mouse_at 10 0))] (1, mouseup) ++
          (2, click button_eraser) ::
          session (2, mouse_sample (mouse_at 5 0)) [] (3, mouseup))
       (new no_options)) =
  [MaskedGroup 0 (pen_path (new no_options) [MoveTo 0 0; LineTo 10 0])].
Proof.
  apply (X10_draw_then_erase no_options
           (0, mouse_sample (mouse_at 0 0)) (2, mouse_sample (mouse_at 5 0))
           [(0, mouse_sample (mouse_at 10 0))] [] 1 2 3 mouseup mouseup);
    reflexivity.
Defined.

(** An eraser stroke ended at reading 1, a pen stroke ended at reading 3. *)
Lemma X11_erase_then_draw_witness :
  drawingContainer
    (run ((0, click button_eraser) ::
          session (0, mouse_sample (mouse_at 5 0)) [] (1, mouseup) ++
          (2, click button_pen) ::
          session (2, mouse_sample (mouse_at 0 0))
            [(2, mouse_sample (mouse_at 10 0))] (3, touchend))
       (new no_options)) =
  [PathNode (pen_path (new no_options) [MoveTo 0 0; LineTo 10 0])].
Proof.
  apply (X11_erase_then_draw no_options
           (0, mouse_sample (mouse_at 5 0)) (2, mouse_sample (mouse_at 0 0))
           [] [(2, mouse_sample (mouse_at 10 0))] 0 1 2 3 mouseup touchend);
    try reflexivity; lia.
Defined.


End MoreWitnesses.

Section LifecycleWitnesses.
Import PenToolJs.

(** ['eraser'] on an instance that was never initialised. *)
Lemma X13_setActiveTool_before_init_witness :
  setActiveTool "eraser" (new false) =
  Thrown (set_currentTool "eraser" (new false)).
Proof.
  apply (X13_setActiveTool_before_init (new false) "eraser");
    [reflexivity | reflexivity | simpl; auto].
Defined.

(** ['hand'] on an initialised instance. *)
Lemma X14_setActiveTool_updates_interface_witness :
  exists s' buttons',
    setActiveTool "hand" ready = Returned s' /\
    toolbar s' = Some buttons' /\
    map data_tool buttons' = ["pen"; "eraser"; "hand"; "clear"] /\
    svg s' = Some {| display := ""; pointerEvents := "none" |}.
Proof.
  destruct (X14_setActiveTool_updates_interface ready "hand"
              {| display := ""; pointerEvents := "auto" |}
              (createToolbar (new false)) eq_refl eq_refl eq_refl)
    as (s' & buttons' & H1 & H2 & H3 & _ & _ & _ & H4 & _).
  { simpl. auto. }
  exists s', buttons'. repeat split; assumption.
Defined.


End LifecycleWitnesses.

(** * The input handlers of the JavaScript build *)

Section Input.
Import PenToolJsInput.

Lemma js_insert_In a l x :
  In x (insert_by_timestamp a l) <-> x = a \/ In x l.
Proof.
  induction l as [|b l IH]; simpl; [intuition|].
  destruct (timestamp a <=? timestamp b); simpl; [intuition|].
  rewrite IH. intuition.
Qed.

Lemma js_sort_In l x : In x (sort_by_timestamp l) <-> In x l.
Proof.
  induction l as [|a l IH]; simpl; [reflexivity|].
  rewrite js_insert_In, IH. intuition.
Qed.

Lemma js_renderStrokes_strokes s :
  strokes (renderStrokes s) = sort_by_timestamp (strokes s).
Proof.
  unfold renderStrokes. destruct (renderPens _ _ _ _ _). reflexivity.
Qed.

Lemma js_hideEraserIndicator_strokes s :
  strokes (hideEraserIndicator s) = strokes s.
Proof. unfold hideEraserIndicator. destruct (eraserIndicator s); reflexivity. Qed.

Lemma js_hideEraserIndicator_isDrawing s :
  isDrawing (hideEraserIndicator s) = isDrawing s.
Proof. unfold hideEraserIndicator. destruct (eraserIndicator s); reflexivity. Qed.

(** X17.  With the hand tool selected every handler of pointer input
    returns at once and changes nothing, except [handleDrawEnd], which has
    no such guard.  So when the hand tool is selected while a session is in
    progress, a touch-end or touch-cancel does not end the session; a
    mouse-up does, and it commits the path as a stroke of type ['hand'],
    which every later composite pass counts among the erasers and never
    among the pen strokes. *)
Theorem X17_hand_tool_gate
    (s : State) (now : Z) (mouse : MouseEvent) (touch : BoundedTouchEvent) :
  currentTool s = hand ->
  handleDrawStart mouse now s = s /\
  handleDrawMove mouse s = s /\
  handleMouseLeave s = s /\
  handleTouchStart touch now s = s /\
  handleTouchMove touch s = s /\
  handleTouchEnd now s = s /\
  (isDrawing s = true -> forall ref, currentPath s = Some ref ->
     let stroke :=
       {| type := hand; element := ref; timestamp := now;
          isTemporary := false |} in
     isDrawing (handleDrawEnd now s) = false /\
     In stroke (strokes (handleDrawEnd now s)) /\
     In stroke (eraserStrokes (strokes (handleDrawEnd now s))) /\
     ~ In stroke (penStrokes (strokes (handleDrawEnd now s)))).
Proof.
  intros Ht.
  unfold handleDrawStart, handleDrawMove, handleMouseLeave,
    handleTouchStart, handleTouchMove, handleTouchEnd.
  rewrite Ht. simpl. do 6 (split; [reflexivity|]).
  intros Hd ref Hp.
  set (stroke := {| type := hand; element := ref; timestamp := now;
                    isTemporary := false |}).
  assert (Hin : In stroke (strokes (handleDrawEnd now s))).
  { unfold handleDrawEnd. rewrite Hd, Hp. simpl.
    rewrite js_hideEraserIndicator_strokes. simpl.
    rewrite js_renderStrokes_strokes. apply js_sort_In.
    destruct (temporaryEraserStroke s); simpl; rewrite Ht;
      apply in_or_app; right; now left. }
  split.
  { unfold handleDrawEnd. rewrite Hd. simpl.
    now rewrite js_hideEraserIndicator_isDrawing. }
  split; [exact Hin|].
  unfold eraserStrokes, penStrokes. rewrite !filter_In.
  split; [split; [exact Hin|reflexivity]|].
  intros [_ H]. discriminate.
Qed.

(** X18.  A touch event counts only when it carries exactly one touch that
    lies inside the rectangle of the [<svg>] (borders included).  Then
    [handleTouchStart] and [handleTouchMove] do exactly what
    [handleDrawStart] and [handleDrawMove] do for a mouse event at the same
    position.  A single touch outside the rectangle, and an event with no
    touch or with several, change nothing: no stroke is begun, no point is
    added to the stroke in progress, the indicator does not move, and the
    session in progress is not ended. *)
Theorem X18_touch_follows_mouse
    (s : State) (now : Z) (event : BoundedTouchEvent) (touch : Touch) :
  let x := touch_clientX touch - touch_rect_left (touch_event event) in
  let y := touch_clientY touch - touch_rect_top (touch_event event) in
  let mouse :=
    {| clientX := touch_clientX touch; clientY := touch_clientY touch;
       rect_left := touch_rect_left (touch_event event);
       rect_top := touch_rect_top (touch_event event) |} in
  (touches (touch_event event) = [touch] ->
   withinBounds x y event = true ->
   handleTouchStart event now s = handleDrawStart mouse now s /\
   handleTouchMove event s = handleDrawMove mouse s) /\
  (touches (touch_event event) = [touch] ->
   withinBounds x y event = false ->
   handleTouchStart event now s = s /\ handleTouchMove event s = s) /\
  (length (touches (touch_event event)) <> 1%nat ->
   handleTouchStart event now s = s /\ handleTouchMove event s = s).
Proof.
  intros x y mouse. subst x y mouse.
  unfold handleTouchStart, handleTouchMove, handleDrawStart, handleDrawMove.
  split; [|split].
  - intros Hone Hin. rewrite Hone, Hin. simpl.
    destruct (currentTool s); simpl; split; reflexivity.
  - intros Hone Hout. rewrite Hone, Hout. simpl.
    destruct (currentTool s); simpl; rewrite ?andb_false_r;
      destruct (isDrawing s); split; reflexivity.
  - intros Hlen.
    destruct (touches (touch_event event)) as [|t [|t' ts]];
      [|now contradiction Hlen|];
      destruct (currentTool s); split; reflexivity.
Qed.

(** X19.  With the eraser selected and no session in progress, a mouse move
    over the [<svg>] puts the eraser indicator under the pointer, with the
    configured eraser width, and changes nothing else; the mouse leaving the
    [<svg>] hides it again, which gives back the state before the move when
    no indicator was shown.  While a session is in progress the mouse
    leaving the [<svg>] changes nothing. *)
Theorem X19_eraser_indicator_follows_pointer
    (s : State) (mouse : MouseEvent) :
  let x := clientX mouse - rect_left mouse in
  let y := clientY mouse - rect_top mouse in
  (currentTool s = eraser -> isDrawing s = false ->
   handleDrawMove mouse s =
     set_eraserIndicator
       (Some {| cx := x; cy := y; diameter := eraserWidth s |}) s /\
   handleMouseLeave (handleDrawMove mouse s) = set_eraserIndicator None s /\
   (eraserIndicator s = None ->
    handleMouseLeave (handleDrawMove mouse s) = s)) /\
  (isDrawing s = true -> handleMouseLeave s = s).
Proof.
  intros x y. subst x y. split.
  - intros Ht Hd.
    assert (Hmove : handleDrawMove mouse s =
      set_eraserIndicator
        (Some {| cx := clientX mouse - rect_left mouse;
                 cy := clientY mouse - rect_top mouse;
                 diameter := eraserWidth s |}) s).
    { unfold handleDrawMove. rewrite Ht. simpl. rewrite Hd. reflexivity. }
    split; [exact Hmove|]. rewrite Hmove.
    unfold handleMouseLeave. simpl. rewrite Ht, Hd. simpl.
    split; [reflexivity|].
    intros Hnone. destruct s; simpl in *; subst; reflexivity.
  - intros Hd. unfold handleMouseLeave. rewrite Hd.
    now rewrite andb_false_r.
Qed.

(** A session left open by the hand tool, ended by a mouse-up at
    reading 9. *)
Lemma X17_hand_tool_gate_witness :
  handleTouchEnd 9 hand_selected_while_drawing =
    hand_selected_while_drawing /\
  strokes (handleDrawEnd 9 hand_selected_while_drawing) =
    [{| type := hand; element := 0; timestamp := 9; isTemporary := false |}].
Proof.
  destruct (X17_hand_tool_gate hand_selected_while_drawing 9 (mouse_at 0 0)
              (finger_at 5 5) eq_refl)
    as (_ & _ & _ & _ & _ & Hend & Hup).
  split; [exact Hend|].
  destruct (Hup eq_refl 0%nat eq_refl) as (_ & Hin & _).
  reflexivity.
Defined.

(** A finger inside the rectangle begins a stroke like the mouse; a finger
    outside does nothing. *)
Lemma X18_touch_follows_mouse_witness :
  handleTouchStart (finger_at 5 5) 1 (initialised 3 "#000000" 15) =
    handleDrawStart (mouse_at 5 5) 1 (initialised 3 "#000000" 15) /\
  handleTouchStart (finger_at 500 5) 1 (initialised 3 "#000000" 15) =
    initialised 3 "#000000" 15.
Proof.
  destruct (X18_touch_follows_mouse (initialised 3 "#000000" 15) 1
              (finger_at 5 5) {| touch_clientX := 5; touch_clientY := 5 |})
    as (Hin & _ & _).
  destruct (X18_touch_follows_mouse (initialised 3 "#000000" 15) 1
              (finger_at 500 5)
              {| touch_clientX := 500; touch_clientY := 5 |})
    as (_ & Hout & _).
  split.
  - apply (Hin eq_refl eq_refl).
  - apply (Hout eq_refl eq_refl).
Defined.

(** The pointer hovers at (7, 8) with the eraser selected, then leaves. *)
Lemma X19_eraser_indicator_follows_pointer_witness :
  eraserIndicator (handleDrawMove (mouse_at 7 8) eraser_idle) =
    Some {| cx := 7; cy := 8; diameter := 15 |} /\
  handleMouseLeave (handleDrawMove (mouse_at 7 8) eraser_idle) = eraser_idle.
Proof.
  destruct (X19_eraser_indicator_follows_pointer eraser_idle (mouse_at 7 8))
    as [H _].
  destruct (H eq_refl eq_refl) as (Hmove & _ & Hback).
  split; [rewrite Hmove; reflexivity | apply Hback; reflexivity].
Defined.

End Input.
